(** * Florida Trees News: the feed-ingestion pipeline of [api/news.js]

    The repository holds three revisions of the serverless function
    [api/news.js].  Each one is embedded below in a module of its own:

    - [FloridaTrees]: the revision with the relevance gate
      (eight sources, [decodeEntities], [getTag], [dedup], cache);
    - [Vercel]: the ES-module revision (six sources, [decode], [detectCat],
      no in-memory cache);
    - [Lambda]: the CommonJS revision with the guarded in-memory [CACHE]
      (five sources, [unescape], [tag], [parseItems]).

    JavaScript strings are sequences of UTF-16 code units; regular
    expressions are run by a small backtracking matcher that follows the
    order in which the ECMAScript matcher explores alternatives. *)

From Stdlib Require Import String Ascii.
From Stdlib Require Import List NArith ZArith Bool Arith Lia.
From Stdlib Require Import Sorting.Sorted Sorting.Permutation.
Import ListNotations.

Set Implicit Arguments.

(* ================================================================== *)
(** ** JavaScript strings *)

(** A string value: its UTF-16 code units. *)
Definition jstring := list N.

(** An ASCII literal of the source as a string value. *)
Definition js (s : string) : jstring :=
  map N_of_ascii (list_ascii_of_string s).
Arguments js s%_string.

(** The double quote, which a literal of this file cannot hold. *)
Definition dquote : N := 34%N.

Fixpoint jeqb (a b : jstring) : bool :=
  match a, b with
  | [], [] => true
  | x :: a', y :: b' => N.eqb x y && jeqb a' b'
  | _, _ => false
  end.

(** [ToBoolean] on a string: only the empty string is falsy. *)
Definition truthy (s : jstring) : bool :=
  match s with [] => false | _ :: _ => true end.

(** [a || b] on strings. *)
Definition orElse (a b : jstring) : jstring :=
  if truthy a then a else b.

(** [s.startsWith(p)]. *)
Fixpoint startsWith (s p : jstring) {struct p} : bool :=
  match p with
  | [] => true
  | y :: p' =>
      match s with
      | [] => false
      | x :: s' => N.eqb x y && startsWith s' p'
      end
  end.

(** [s.includes(w)]. *)
Fixpoint includes (s w : jstring) : bool :=
  startsWith s w ||
  match s with
  | [] => false
  | _ :: s' => includes s' w
  end.

(** [s.slice(0, n)] for a literal [n >= 0]. *)
Definition slice0 (n : nat) (s : jstring) : jstring := firstn n s.

(** WhiteSpace and LineTerminator code units: the class [\s] and the set
    that [trim] removes. *)
Definition isSpace (c : N) : bool :=
  ((9 <=? c) && (c <=? 13) || (c =? 32) || (c =? 160) || (c =? 5760)
   || (8192 <=? c) && (c <=? 8202) || (c =? 8232) || (c =? 8233)
   || (c =? 8239) || (c =? 8287) || (c =? 12288) || (c =? 65279))%N.

Fixpoint trimStart (s : jstring) : jstring :=
  match s with
  | x :: s' => if isSpace x then trimStart s' else s
  | [] => []
  end.

Definition trimEnd (s : jstring) : jstring := rev (trimStart (rev s)).

(** [s.trim()]. *)
Definition trim (s : jstring) : jstring := trimEnd (trimStart s).

Definition isUpperAscii (c : N) : bool := ((65 <=? c) && (c <=? 90))%N.
Definition isLowerAscii (c : N) : bool := ((97 <=? c) && (c <=? 122))%N.
Definition isDigit (c : N) : bool := ((48 <=? c) && (c <=? 57))%N.

(** Lower-casing of one code unit.  ASCII and Latin-1 letters move by 32;
    U+0130 becomes [i] followed by U+0307 and U+212A (the Kelvin sign)
    becomes [k]: these two are the only units outside ASCII whose
    lower-case form holds an ASCII letter.  Cased letters of other scripts
    are kept as they are: they stay outside ASCII either way. *)
Definition lowerUnit (c : N) : jstring :=
  if isUpperAscii c then [c + 32]%N
  else if ((192 <=? c) && (c <=? 222) && negb (c =? 215))%N then [c + 32]%N
  else if (c =? 304)%N then [105; 775]%N
  else if (c =? 8490)%N then [107]%N
  else [c].

(** [s.toLowerCase()] where the result is only searched for ASCII
    keywords or cut down to ASCII units.  There only the ASCII units of
    the result matter, and [lowerUnit] yields them all: no unit but the
    ones it folds has an ASCII unit in its lower-case form.  On text of
    ASCII and Latin-1 units it is the mapping of the engine itself; a key
    that keeps the other units takes [lowerCase] of the runtime. *)
Definition toLowerCase (s : jstring) : jstring := flat_map lowerUnit s.

(** [Canonicalize] of the matcher under the flag [i] (without [u]): a unit
    outside ASCII never becomes an ASCII unit, so against the ASCII
    patterns of this program only the ASCII letters fold. *)
Definition canon (c : N) : N :=
  if isLowerAscii c then (c - 32)%N else c.

(* ================================================================== *)
(** ** Numbers *)

(** The Number value of a non-negative mathematical integer: integers
    below 2^53 are exact, larger ones are rounded to 53 significant bits,
    ties to even. *)
Definition toNumber (v : N) : N :=
  if (v <? 2 ^ 53)%N then v
  else
    let e := (N.log2 v - 52)%N in
    let q := N.shiftr v e in
    let r := (v - N.shiftl q e)%N in
    let half := N.shiftl 1 (e - 1) in
    let up := orb (half <? r)%N (andb (r =? half)%N (N.odd q)) in
    N.shiftl (if up then q + 1 else q)%N e.

(** [ToUint16].  A value that rounds to [Infinity] gives 0, which is also
    what the remainder of its rounded integer gives: at that size every
    Number is a multiple of 2^16. *)
Definition toUint16 (v : N) : N := (v mod 65536)%N.

(** [String.fromCharCode(v)]. *)
Definition fromCharCode (v : N) : jstring := [toUint16 v].

Definition digitVal (c : N) : N :=
  if isDigit c then (c - 48)%N
  else if isLowerAscii c then (c - 87)%N
  else (c - 55)%N.

(** The mathematical value of a digit string in a radix. *)
Definition valueOf (radix : N) (ds : jstring) : N :=
  fold_left (fun acc d => (acc * radix + digitVal d)%N) ds 0%N.

(** [+n] for a string of decimal digits and [parseInt(h, 16)] for a string
    of hexadecimal digits. *)
Definition numberOfDecimal (ds : jstring) : N := toNumber (valueOf 10 ds).
Definition parseInt16 (ds : jstring) : N := toNumber (valueOf 16 ds).

(* ================================================================== *)
(** ** Regular expressions *)

(** The fragment of the pattern language that the program uses.  A
    quantified atom is always a single character class. *)
Inductive regex : Type :=
| Eps
| Chr (p : N -> bool)
| Seq (r1 r2 : regex)
| Alt (r1 r2 : regex)
| Opt (r : regex)
| Rep (lazy : bool) (min : nat) (p : N -> bool)
| Cap (i : nat) (r : regex).

(** Capture groups that took part in the match, most recent first. *)
Definition caps := list (nat * jstring).

Fixpoint capture (c : caps) (i : nat) : option jstring :=
  match c with
  | [] => None
  | (j, s) :: c' => if Nat.eqb i j then Some s else capture c' i
  end.

(** [m[i]] where a group that did not take part reads as a falsy value. *)
Definition group (c : caps) (i : nat) : jstring :=
  match capture c i with Some s => s | None => [] end.

Section Matcher.
Variable R : Type.

(** [p{min,}]: as many units as possible, giving back one at a time. *)
Fixpoint repGreedy (p : N -> bool) (k : jstring -> option R)
         (min : nat) (s : jstring) {struct s} : option R :=
  let stop := match min with O => k s | S _ => None end in
  match s with
  | x :: s' =>
      if p x then
        match repGreedy p k (Nat.pred min) s' with
        | Some r => Some r
        | None => stop
        end
      else stop
  | [] => stop
  end.

(** [p{min,}?]: as few units as possible, taking one more at a time. *)
Fixpoint repLazy (p : N -> bool) (k : jstring -> option R)
         (min : nat) (s : jstring) {struct s} : option R :=
  let more :=
    match s with
    | x :: s' => if p x then repLazy p k (Nat.pred min) s' else None
    | [] => None
    end in
  match min with
  | O => match k s with Some r => Some r | None => more end
  | S _ => more
  end.

(** The matcher in continuation style: [k] is what remains to be
    matched after [r]; the first successful path wins. *)
Fixpoint mtch (r : regex) (s : jstring) (c : caps)
         (k : jstring -> caps -> option R) {struct r} : option R :=
  match r with
  | Eps => k s c
  | Chr p =>
      match s with
      | x :: s' => if p x then k s' c else None
      | [] => None
      end
  | Seq r1 r2 => mtch r1 s c (fun s1 c1 => mtch r2 s1 c1 k)
  | Alt r1 r2 =>
      match mtch r1 s c k with
      | Some x => Some x
      | None => mtch r2 s c k
      end
  | Opt r1 =>
      match mtch r1 s c k with
      | Some x => Some x
      | None => k s c
      end
  | Rep false min p => repGreedy p (fun s' => k s' c) min s
  | Rep true min p => repLazy p (fun s' => k s' c) min s
  | Cap i r1 =>
      mtch r1 s c
           (fun s1 c1 =>
              k s1 ((i, firstn (length s - length s1) s) :: c1))
  end.
End Matcher.

(** A match that starts at the head of [s]: the captures and the input
    that follows the match. *)
Definition matchAt (r : regex) (s : jstring) : option (caps * jstring) :=
  mtch r s [] (fun s' c => Some (c, s')).

(** [s.match(r)] and [r.exec(s)] without the flag [g]: the leftmost
    match. *)
Fixpoint search (r : regex) (s : jstring) : option (caps * jstring) :=
  match matchAt r s with
  | Some m => Some m
  | None =>
      match s with
      | [] => None
      | _ :: s' => search r s'
      end
  end.

(** The successive matches of a global pattern, as the loop
    [while ((m = re.exec(s)) !== null)] meets them.  [skip] counts the
    units of the last match that are still to be passed over. *)
Fixpoint matchAllFrom (r : regex) (skip : nat) (s : jstring) : list caps :=
  match skip with
  | S n =>
      match s with
      | [] => []
      | _ :: s' => matchAllFrom r n s'
      end
  | O =>
      match matchAt r s with
      | Some (c, rest) =>
          c :: match s with
               | [] => []
               | _ :: s' => matchAllFrom r (Nat.pred (length s - length rest)) s'
               end
      | None =>
          match s with
          | [] => []
          | _ :: s' => matchAllFrom r 0 s'
          end
      end
  end.

Definition matchAll (r : regex) (s : jstring) : list caps :=
  matchAllFrom r 0 s.

(** [s.replace(r, f)] for a global pattern [r]: every match, left to
    right, is replaced by [f] of its captures; an empty match is followed
    by the unit it stands before. *)
Fixpoint replaceFrom (r : regex) (f : caps -> jstring) (skip : nat)
         (s : jstring) : jstring :=
  match skip with
  | S n =>
      match s with
      | [] => []
      | _ :: s' => replaceFrom r f n s'
      end
  | O =>
      match matchAt r s with
      | Some (c, rest) =>
          f c ++
          match s with
          | [] => []
          | x :: s' =>
              match length s - length rest with
              | O => x :: replaceFrom r f 0 s'
              | S n => replaceFrom r f n s'
              end
          end
      | None =>
          match s with
          | [] => []
          | x :: s' => x :: replaceFrom r f 0 s'
          end
      end
  end.

Definition replaceAll (r : regex) (f : caps -> jstring) (s : jstring)
  : jstring := replaceFrom r f 0 s.

(** Replacement by a fixed string (none of the program's replacement
    strings holds a [$]). *)
Definition replaceWith (r : regex) (t : jstring) (s : jstring) : jstring :=
  replaceAll r (fun _ => t) s.

(** *** Building patterns *)

Definition only (c : N) : N -> bool := N.eqb c.
Definition except (c : N) : N -> bool := fun x => negb (N.eqb c x).
(** A literal unit under the flag [i]. *)
Definition onlyCI (c : N) : N -> bool := fun x => N.eqb (canon c) (canon x).
Definition anyUnit : N -> bool := fun _ => true.

(** A literal, case-sensitive. *)
Fixpoint lit (s : jstring) : regex :=
  match s with
  | [] => Eps
  | x :: s' => Seq (Chr (only x)) (lit s')
  end.

(** A literal under the flag [i]. *)
Fixpoint litCI (s : jstring) : regex :=
  match s with
  | [] => Eps
  | x :: s' => Seq (Chr (onlyCI x)) (litCI s')
  end.

Fixpoint seqs (rs : list regex) : regex :=
  match rs with
  | [] => Eps
  | [r] => r
  | r :: rs' => Seq r (seqs rs')
  end.

(** [\d], [[0-9a-f]] under [i], [[a-z0-9]], [\w]. *)
Definition isHexDigit (c : N) : bool :=
  (isDigit c || (97 <=? c) && (c <=? 102) || (65 <=? c) && (c <=? 70))%N.
Definition isLowerAlnum (c : N) : bool := isLowerAscii c || isDigit c.
Definition isWord (c : N) : bool :=
  (isLowerAscii c || isUpperAscii c || isDigit c || (c =? 95))%N.

(** The negated classes of [>], of the double quote and of [<]. *)
Definition notGt : N -> bool := except 62.
Definition notDq : N -> bool := except dquote.
Definition notLt : N -> bool := except 60.

(** Source order for a chain of method calls: [s |> f |> g] is
    [s.f().g()]. *)
Notation "x |> f" := (f x) (at level 45, left associativity, only parsing).

(* ================================================================== *)
(** ** The runtime: clock, date parser, transport *)

(** What the program reads from its runtime.  [clockAt k] is the value of
    the [k]-th reading of the clock ([Date.now()], [new Date()]) in one
    run; [dateParse s] is the time value of [new Date(s)], [None] for an
    invalid date ([NaN]); [lowerCase s] is [s.toLowerCase()] as the engine
    computes it with its tables of the Unicode case mapping, for every
    script.  A key that keeps units outside ASCII is built with it. *)
Record Runtime : Type := {
  clockAt : nat -> Z;
  dateParse : jstring -> option Z;
  lowerCase : jstring -> jstring
}.

(** The transport of one request, as a black box: the text that a URL
    answers with, or [None] when the fetch fails (status other than 200,
    timeout, transport error, too many redirects). *)
Definition Transport := jstring -> option jstring.

(** What the callback of [https.get] sees of a response: the status
    code, the [location] header (empty when the header is absent) and the
    text of the body once every chunk has arrived ([None] when the stream
    of the body fails). *)
Record Reply : Type := {
  statusCode : Z;
  location : jstring;
  text : option jstring
}.

(** The network as the transport functions meet it.  [request u] is the
    response to a request of [u], [None] when the request gives none: the
    URL does not parse, the request fails or it times out.
    [resolveUrl l u] is [new URL(l, u).toString()]. *)
Record Web : Type := {
  request : jstring -> option Reply;
  resolveUrl : jstring -> jstring -> jstring
}.

(** Computations that read the clock: the state is the number of readings
    made so far. *)
Definition Clock (A : Type) : Type := nat -> A * nat.

Definition ret {A : Type} (a : A) : Clock A := fun t => (a, t).

Definition bind {A B : Type} (m : Clock A) (f : A -> Clock B) : Clock B :=
  fun t => let (a, t') := m t in f a t'.

Notation "x <- m ;; k" := (bind m (fun x => k))
  (at level 61, m at next level, right associativity).

(** [Date.now()] and the time value of [new Date()]. *)
Definition dateNow (rt : Runtime) : Clock Z :=
  fun t => (clockAt rt t, S t).

Fixpoint mapM {A B : Type} (f : A -> Clock B) (l : list A)
  : Clock (list B) :=
  match l with
  | [] => ret []
  | x :: l' => y <- f x ;; ys <- mapM f l' ;; ret (y :: ys)
  end.

(** A settled promise: [Some v] when fulfilled with [v], [None] when
    rejected. *)
Definition Settled (A : Type) : Type := option A.

(** [settled.flatMap(r => r.status === 'fulfilled' ? r.value : [])]. *)
Definition fulfilledValues {A : Type} (settled : list (Settled (list A)))
  : list A :=
  flat_map (fun r => match r with Some v => v | None => [] end) settled.

(* ================================================================== *)
(** ** [Array.prototype.sort] *)

(** The sort is stable, and with a consistent comparator its result is
    the one stable ordering of the input; insertion computes it.  An
    element moves behind another one only when the comparator is
    positive. *)
Section Sort.
Variable A : Type.
Variable cmp : A -> A -> Z.

Fixpoint insertSorted (x : A) (l : list A) : list A :=
  match l with
  | [] => [x]
  | y :: l' => if (0 <? cmp x y)%Z then y :: insertSorted x l' else x :: l
  end.

Definition sortBy (l : list A) : list A := fold_right insertSorted [] l.
End Sort.

(* ================================================================== *)
(** ** HTTP responses *)

Inductive Body (P : Type) : Type :=
| Json (p : P)
| JsonError (error : string)
| Ended.
Arguments JsonError {P} error%_string.
Arguments Ended {P}.

Record Response (P : Type) : Type := {
  status : Z;
  headers : list (string * string);
  body : Body P
}.

Definition header {P : Type} (r : Response P) (name : string)
  : option string :=
  match find (fun h => String.eqb (fst h) name) (headers r) with
  | Some h => Some (snd h)
  | None => None
  end.

Definition corsHeaders : list (string * string) :=
  [("Access-Control-Allow-Origin", "*");
   ("Access-Control-Allow-Methods", "GET, OPTIONS")]%string.

(* ================================================================== *)
(** ** Patterns that the revisions share *)

(** [/<item[^>]*>([\s\S]*?)<\/item>/gi] *)
Definition itemRe : regex :=
  seqs [litCI (js "<item"); Rep false 0 notGt; litCI (js ">");
        Cap 1 (Rep true 0 anyUnit); litCI (js "</item>")].

(** The blocks [m[1]] that the loop over [re.exec(xml)] visits. *)
Definition itemBlocks (xml : jstring) : list jstring :=
  map (fun m => group m 1) (matchAll itemRe xml).

(** [/<[^>]+>/g] and [/\s+/g]. *)
Definition anyTag : regex :=
  seqs [lit (js "<"); Rep false 1 notGt; lit (js ">")].
Definition spaces : regex := Rep false 1 isSpace.

(** [/&#(\d+);/g] *)
Definition decimalRef : regex :=
  seqs [lit (js "&#"); Cap 1 (Rep false 1 isDigit); lit (js ";")].

(** [<tag[^>]+attr=Q([^Q]+)Q] under the flag [i], where [Q] stands for
    the double quote. *)
Definition attrRe (tag attr : jstring) : regex :=
  seqs [litCI (js "<" ++ tag); Rep false 1 notGt;
        litCI (attr ++ js "=" ++ [dquote]);
        Cap 1 (Rep false 1 notDq); litCI [dquote]].

Definition firstGroup (r : regex) (s : jstring) : option jstring :=
  match search r s with
  | Some (c, _) => Some (group c 1)
  | None => None
  end.

(* ================================================================== *)
(** ** Revision with the relevance gate (src/unnamed/part_000) *)

Module FloridaTrees.

Record Source : Type := {
  name : jstring;
  label : jstring;
  url : jstring
}.

Record Article : Type := {
  title : jstring;
  link : jstring;
  description : jstring;
  thumbnail : jstring;
  pubDate : jstring;
  _pubTimestamp : Z;
  _source : jstring;
  _sourceLabel : jstring
}.

Record Payload : Type := {
  ok : bool;
  count : nat;
  fetchedAt : Z;
  articles : list Article
}.

(** [let cache = { data: null, ts: 0 }]. *)
Record Cache : Type := {
  data : option Payload;
  ts : Z
}.

Definition initialCache : Cache := {| data := None; ts := 0 |}.

Definition CACHE_TTL : Z := 5 * 60 * 1000.

Definition SOURCES : list Source :=
  [ {| name := js "Florida Cannabis"; label := js "FL Cannabis";
       url := js "https://news.google.com/rss/search?q=florida+cannabis&hl=en-US&gl=US&ceid=US:en" |};
    {| name := js "Florida Marijuana"; label := js "FL Marijuana";
       url := js "https://news.google.com/rss/search?q=florida+marijuana&hl=en-US&gl=US&ceid=US:en" |};
    {| name := js "Florida Hemp"; label := js "FL Hemp";
       url := js "https://news.google.com/rss/search?q=florida+hemp&hl=en-US&gl=US&ceid=US:en" |};
    {| name := js "Florida Medical Marijuana"; label := js "FL Medical";
       url := js "https://news.google.com/rss/search?q=florida+%22medical+marijuana%22&hl=en-US&gl=US&ceid=US:en" |};
    {| name := js "Florida Dispensary"; label := js "FL Dispensary";
       url := js "https://news.google.com/rss/search?q=florida+dispensary+cannabis&hl=en-US&gl=US&ceid=US:en" |};
    {| name := js "Florida MMJ Law"; label := js "FL Law";
       url := js "https://news.google.com/rss/search?q=florida+marijuana+law+2025&hl=en-US&gl=US&ceid=US:en" |};
    {| name := js "Florida Cannabis Business"; label := js "FL Business";
       url := js "https://news.google.com/rss/search?q=florida+cannabis+business&hl=en-US&gl=US&ceid=US:en" |};
    {| name := js "Florida THC CBD"; label := js "FL THC/CBD";
       url := js "https://news.google.com/rss/search?q=florida+thc+OR+cbd+cannabis&hl=en-US&gl=US&ceid=US:en" |} ].

(** *** Relevance filter *)

Definition FL_WORDS : list jstring := [js "florida"; js "fl "].

Definition CANNA_WORDS : list jstring :=
  map js ["cannabis"; "marijuana"; "hemp"; "mmj"; "dispensary"; "thc";
          "cbd"; "weed"; "edible"; "cultivation"; "trulieve"; "curaleaf";
          "surterra"; "fluent"; "vidacann"; "canna"]%string.

Definition isRelevant (title desc : jstring) : bool :=
  let text := toLowerCase (title ++ js " " ++ desc) in
  let hasFL := existsb (fun w => includes text w) FL_WORDS in
  let hasCanna := existsb (fun w => includes text w) CANNA_WORDS in
  hasFL && hasCanna.

(** *** HTTP fetch *)

(** [[301,302,307,308].includes(res.statusCode) && res.headers.location] *)
Definition isRedirect (res : Reply) : bool :=
  existsb (Z.eqb (statusCode res)) [301; 302; 307; 308]%Z
  && truthy (location res).

(** What the callback does with a response that it does not follow. *)
Definition settle (res : Reply) : option jstring :=
  if negb (statusCode res =? 200)%Z then None else text res.

(** [fetchUrl(urlStr, redirects)]: [Some] of the text the promise is
    resolved with, [None] when it is rejected. *)
Fixpoint fetchUrl (web : Web) (urlStr : jstring) (redirects : nat)
  : option jstring :=
  match request web urlStr with
  | None => None
  | Some res =>
      match redirects with
      | S fewer =>
          if isRedirect res then
            let next := if startsWith (location res) (js "http")
                        then location res
                        else resolveUrl web (location res) urlStr in
            fetchUrl web next fewer
          else settle res
      | O => settle res
      end
  end.

(** [fetchUrl(s.url)], with the default of five redirects. *)
Definition fetchUrlDefault (web : Web) : Transport :=
  fun urlStr => fetchUrl web urlStr 5.

(** *** XML helpers *)

(** [/&#x([0-9a-f]+);/gi] *)
Definition hexRef : regex :=
  seqs [litCI (js "&#x"); Cap 1 (Rep false 1 isHexDigit); litCI (js ";")].

Definition decodeEntities (s : jstring) : jstring :=
  s |> replaceWith (lit (js "&amp;")) (js "&")
    |> replaceWith (lit (js "&lt;")) (js "<")
    |> replaceWith (lit (js "&gt;")) (js ">")
    |> replaceWith (lit (js "&quot;")) [dquote]
    |> replaceWith (lit (js "&#39;")) (js "'")
    |> replaceWith (lit (js "&apos;")) (js "'")
    |> replaceAll decimalRef
         (fun c => fromCharCode (numberOfDecimal (group c 1)))
    |> replaceAll hexRef
         (fun c => fromCharCode (parseInt16 (group c 1))).

(** The attributes of an opening tag: the optional, non-capturing group
    of [\s] followed by [[^>]*]; written [A] in the patterns below. *)
Definition attrs : regex := Opt (Seq (Chr isSpace) (Rep false 0 notGt)).

(** The two patterns built from a tag name, both under the flag [i]:
    [<tagA><!\[CDATA\[([\s\S]*?)\]\]><\/tag>] and
    [<tagA>([\s\S]*?)<\/tag>].  The tag names that the
    program passes hold no pattern syntax. *)
Definition cdataRe (tag : jstring) : regex :=
  seqs [litCI (js "<" ++ tag); attrs; litCI (js "><![CDATA[");
        Cap 1 (Rep true 0 anyUnit); litCI (js "]]></" ++ tag ++ js ">")].

Definition plainRe (tag : jstring) : regex :=
  seqs [litCI (js "<" ++ tag); attrs; litCI (js ">");
        Cap 1 (Rep true 0 anyUnit); litCI (js "</" ++ tag ++ js ">")].

(** [xml.match(cdata) || xml.match(plain)]. *)
Definition matchTag (xml tag : jstring) : option caps :=
  match search (cdataRe tag) xml with
  | Some (c, _) => Some c
  | None =>
      match search (plainRe tag) xml with
      | Some (c, _) => Some c
      | None => None
      end
  end.

Definition getTag (xml tag : jstring) : jstring :=
  match matchTag xml tag with
  | None => []
  | Some m =>
      decodeEntities
        (group m 1 |> replaceWith anyTag (js " ")
                   |> replaceWith spaces (js " ")
                   |> trim)
  end.

Definition getRawTag (xml tag : jstring) : jstring :=
  match matchTag xml tag with
  | Some m => trim (group m 1)
  | None => []
  end.

(** [/<enclosure[^>]+type=Qimage[^Q]*Q[^>]+url=Q([^Q]+)Q/i] *)
Definition enclosureRe : regex :=
  seqs [litCI (js "<enclosure"); Rep false 1 notGt;
        litCI (js "type=" ++ [dquote] ++ js "image");
        Rep false 0 notDq; litCI [dquote]; Rep false 1 notGt;
        litCI (js "url=" ++ [dquote]);
        Cap 1 (Rep false 1 notDq); litCI [dquote]].

Definition getThumbnail (itemXml rawDesc : jstring) : jstring :=
  match firstGroup (attrRe (js "media:content") (js "url")) itemXml with
  | Some u => u
  | None =>
  match firstGroup (attrRe (js "media:thumbnail") (js "url")) itemXml with
  | Some u => u
  | None =>
  match firstGroup enclosureRe itemXml with
  | Some u => u
  | None =>
  match firstGroup (attrRe (js "img") (js "src")) rawDesc with
  | Some u => u
  | None => []
  end end end end.

(** *** Parse RSS *)

(** The body of the loop for one block: [None] where the source says
    [continue], [Some] of the pushed item otherwise.  [ts] is [None]
    for [NaN]. *)
Definition parseItem (rt : Runtime) (source : Source) (b : jstring)
  : Clock (option Article) :=
  let title := getTag b (js "title") in
  let link := orElse (getTag b (js "link")) (orElse (getTag b (js "guid")) []) in
  if negb (truthy title) || negb (truthy link)
     || negb (startsWith link (js "http"))
  then ret None
  else
    let rawDesc := getRawTag b (js "description") in
    let desc := rawDesc |> replaceWith anyTag (js " ")
                        |> replaceWith spaces (js " ")
                        |> trim |> slice0 280 in
    let pubDate :=
      orElse (getTag b (js "pubDate")) (orElse (getTag b (js "dc:date")) []) in
    ts <- (if truthy pubDate then ret (dateParse rt pubDate)
           else now <- dateNow rt ;; ret (Some now)) ;;
    let thumb := getThumbnail b rawDesc in
    if negb (isRelevant title desc) then ret None
    else
      stamp <- match ts with
               | None => dateNow rt
               | Some t => ret t
               end ;;
      ret (Some {| title := title;
                   link := link;
                   description := desc;
                   thumbnail := if startsWith thumb (js "http") then thumb else [];
                   pubDate := pubDate;
                   _pubTimestamp := stamp;
                   _source := name source;
                   _sourceLabel := label source |}).

Fixpoint parseBlocks (rt : Runtime) (source : Source) (blocks : list jstring)
  : Clock (list Article) :=
  match blocks with
  | [] => ret []
  | b :: blocks' =>
      r <- parseItem rt source b ;;
      items <- parseBlocks rt source blocks' ;;
      ret (match r with Some a => a :: items | None => items end)
  end.

Definition parseRSS (rt : Runtime) (xml : jstring) (source : Source)
  : Clock (list Article) :=
  parseBlocks rt source (itemBlocks xml).

(** *** Dedup *)

(** [item.title.slice(0, 65).toLowerCase().replace(/[^a-z0-9]/g, '')] *)
Definition dedupKey (t : jstring) : jstring :=
  t |> slice0 65 |> toLowerCase
    |> replaceWith (Chr (fun c => negb (isLowerAlnum c))) [].

(** The filter with its set [seen], held as the list of the keys added
    so far. *)
Fixpoint dedupFrom (seen : list jstring) (items : list Article)
  : list Article :=
  match items with
  | [] => []
  | item :: items' =>
      let key := dedupKey (title item) in
      if existsb (jeqb key) seen then dedupFrom seen items'
      else item :: dedupFrom (key :: seen) items'
  end.

Definition dedup (items : list Article) : list Article :=
  dedupFrom [] items.

(** *** Handler *)

(** [(a, b) => b._pubTimestamp - a._pubTimestamp] *)
Definition byRecency (a b : Article) : Z :=
  (_pubTimestamp b - _pubTimestamp a)%Z.

(** [dedup(...).sort(...).slice(0, 120)] *)
Definition finalize (raw : list Article) : list Article :=
  firstn 120 (sortBy byRecency (dedup raw)).

Definition cacheControl : string * string :=
  ("Cache-Control", "public, s-maxage=300, stale-while-revalidate=60")%string.

(** One source of the fan-out: the promise is rejected when the fetch
    fails, fulfilled with the parsed items otherwise. *)
Definition fetchAndParse (rt : Runtime) (fetchUrl : Transport) (s : Source)
  : Clock (Settled (list Article)) :=
  match fetchUrl (url s) with
  | Some xml => items <- parseRSS rt xml s ;; ret (Some items)
  | None => ret None
  end.

(** The orchestrator: what [Promise.allSettled] and [flatMap] leave.  The
    settled results are in the order of [sources], whatever the order in
    which the fetches complete.  Each parse runs when its fetch completes;
    the readings of the clock are an arbitrary sequence, so letting the
    parses read it in the order of [sources] leaves out no behaviour. *)
Definition gatherAll (rt : Runtime) (fetchUrl : Transport)
           (sources : list Source) : Clock (list Article) :=
  settled <- mapM (fetchAndParse rt fetchUrl) sources ;;
  ret (fulfilledValues settled).

(** [cache = { data: payload, ts: Date.now() }]: the assignment that
    follows every rebuild. *)
Definition store (rt : Runtime) (payload : Payload) (cache : Cache)
  : Clock Cache :=
  now <- dateNow rt ;; ret {| data := Some payload; ts := now |}.

(** The test [cache.data && Date.now() - cache.ts < CACHE_TTL]: the clock
    is read only when a payload is stored. *)
Definition isFresh (rt : Runtime) (cache : Cache) : Clock bool :=
  match data cache with
  | None => ret false
  | Some _ => now <- dateNow rt ;; ret (now - ts cache <? CACHE_TTL)%Z
  end.

(** The handler past the test of the cache: fetch, parse, merge, store,
    respond. *)
Definition rebuild (rt : Runtime) (fetchUrl : Transport) (cache : Cache)
  : Clock (Response Payload * Cache) :=
  raw <- gatherAll rt fetchUrl SOURCES ;;
  let articles := finalize raw in
  now <- dateNow rt ;;
  let payload := {| ok := true; count := length articles;
                    fetchedAt := now; articles := articles |} in
  cache' <- store rt payload cache ;;
  ret ({| status := 200;
          headers := corsHeaders ++ [("X-Cache", "MISS")%string; cacheControl];
          body := Json payload |}, cache').

(** One request: the response and the cache it leaves.  Requests are
    taken one at a time; two rebuilds that interleave at their [await]
    are outside this model. *)
Definition handler (rt : Runtime) (fetchUrl : Transport) (method : jstring)
           (cache : Cache) : Clock (Response Payload * Cache) :=
  if jeqb method (js "OPTIONS") then
    ret ({| status := 204; headers := corsHeaders; body := Ended |}, cache)
  else
    fresh <- isFresh rt cache ;;
    match fresh, data cache with
    | true, Some p =>
        ret ({| status := 200;
                headers := corsHeaders ++ [("X-Cache", "HIT")%string; cacheControl];
                body := Json p |}, cache)
    | _, _ => rebuild rt fetchUrl cache
    end.

End FloridaTrees.

(* ================================================================== *)
(** ** ES-module revision (src/api/news.js, first document) *)

Module Vercel.

Record Source : Type := {
  name : jstring;
  label : jstring;
  color : jstring;
  url : jstring
}.

(** [pubDate] holds [d.toISOString()] of a valid date [d]; the field of
    the model is the time value of [d], which is what [new Date] of that
    string reads back in the comparator of the sort. *)
Record Article : Type := {
  title : jstring;
  link : jstring;
  description : jstring;
  thumbnail : jstring;
  pubDate : Z;
  source : jstring;
  sourceLabel : jstring;
  sourceColor : jstring;
  category : jstring
}.

(** [fetchedAt] holds [new Date().toISOString()], modelled by its time
    value. *)
Record Payload : Type := {
  ok : bool;
  count : nat;
  fetchedAt : Z;
  articles : list Article
}.

Definition SOURCES : list Source :=
  [ {| name := js "Marijuana Moment"; label := js "MJMoment"; color := js "#4ab45a";
       url := js "https://www.marijuanamoment.net/feed/" |};
    {| name := js "Leafly News"; label := js "Leafly"; color := js "#71bf44";
       url := js "https://www.leafly.com/news/rss.xml" |};
    {| name := js "Cannabis Business Times"; label := js "CBT"; color := js "#c8a84b";
       url := js "https://www.cannabisbusinesstimes.com/rss" |};
    {| name := js "FL Cannabis News"; label := js "FL Cannabis"; color := js "#5096dc";
       url := js "https://news.google.com/rss/search?q=florida+cannabis+marijuana&hl=en-US&gl=US&ceid=US:en" |};
    {| name := js "FL Dispensary News"; label := js "FL Dispensary"; color := js "#a050dc";
       url := js "https://news.google.com/rss/search?q=florida+dispensary+medical+marijuana&hl=en-US&gl=US&ceid=US:en" |};
    {| name := js "FL Policy News"; label := js "FL Policy"; color := js "#e05252";
       url := js "https://news.google.com/rss/search?q=florida+marijuana+law+policy+2025&hl=en-US&gl=US&ceid=US:en" |} ].

(** The entries of [CATS], in the order of [Object.entries]. *)
Definition CATS : list (jstring * list jstring) :=
  [ (js "policy",
     map js ["law"; "bill"; "senate"; "house"; "vote"; "election"; "amendment";
             "regulation"; "ban"; "legal"; "policy"; "legislature"; "governor";
             "tallahassee"; "ballot"; "court"; "arrest"; "decrim"]%string);
    (js "medical",
     map js ["medical"; "patient"; "prescription"; "doctor"; "treatment"; "thc";
             "cbd"; "health"; "clinical"; "mmj"; "qualifying"; "pain"; "ptsd";
             "cancer"; "anxiety"; "epilepsy"]%string);
    (js "business",
     map js ["million"; "revenue"; "market"; "invest"; "stock"; "acquisition";
             "ceo"; "company"; "industry"; "profit"; "earn"; "funding"; "deal";
             "valuation"; "expansion"; "license"]%string);
    (js "dispensary",
     map js ["dispensary"; "store"; "shop"; "retail"; "menu"; "trulieve";
             "curaleaf"; "surterra"; "liberty"; "green thumb"; "location";
             "open"; "purchase"; "buy"]%string);
    (js "lifestyle",
     map js ["recipe"; "food"; "strain"; "review"; "product"; "terpene";
             "edible"; "vape"; "flower"; "culture"; "lifestyle"; "wellness";
             "sleep"; "smoke"; "grow"]%string) ].

Definition detectCat (title desc : jstring) : jstring :=
  let t := toLowerCase (title ++ js " " ++ desc) in
  match find (fun e => existsb (fun k => includes t k) (snd e)) CATS with
  | Some e => fst e
  | None => js "general"
  end.

Definition decode (s : jstring) : jstring :=
  s |> replaceWith (lit (js "&amp;")) (js "&")
    |> replaceWith (lit (js "&lt;")) (js "<")
    |> replaceWith (lit (js "&gt;")) (js ">")
    |> replaceWith (lit (js "&quot;")) [dquote]
    |> replaceWith (lit (js "&#039;")) (js "'")
    |> replaceWith (lit (js "&#8217;")) (js "'")
    |> replaceWith (lit (js "&#8220;")) [dquote]
    |> replaceWith (lit (js "&#8221;")) [dquote]
    |> replaceWith (lit (js "&#8230;")) [8230%N].

(** The pattern of [get], under the flag [i]:
    [<tag[^>]*><!\[CDATA\[([\s\S]*?)\]\]><\/tag>|<tag[^>]*>([\s\S]*?)<\/tag>] *)
Definition getRe (tag : jstring) : regex :=
  Alt (seqs [litCI (js "<" ++ tag); Rep false 0 notGt; litCI (js "><![CDATA[");
             Cap 1 (Rep true 0 anyUnit); litCI (js "]]></" ++ tag ++ js ">")])
      (seqs [litCI (js "<" ++ tag); Rep false 0 notGt; litCI (js ">");
             Cap 2 (Rep true 0 anyUnit); litCI (js "</" ++ tag ++ js ">")]).

(** [get] of the loop body, with the block [b] it closes over. *)
Definition get (b tag : jstring) : jstring :=
  match search (getRe tag) b with
  | Some (x, _) => trim (orElse (group x 1) (orElse (group x 2) []))
  | None => []
  end.

(** The pattern of [gattr], under the flag [i]: [<tag[^>]*attr=Q], the
    capture of [[^Q]*] and [Q], where [Q] stands for the double quote. *)
Definition gattrRe (tag attr : jstring) : regex :=
  seqs [litCI (js "<" ++ tag); Rep false 0 notGt;
        litCI (attr ++ js "=" ++ [dquote]);
        Cap 1 (Rep false 0 notDq); litCI [dquote]].

Definition gattr (b tag attr : jstring) : jstring :=
  match search (gattrRe tag attr) b with
  | Some (x, _) => group x 1
  | None => []
  end.

(** The body of the loop of [parseRSS] for one block.  [d] is [None] for
    an invalid date. *)
Definition parseItem (rt : Runtime) (src : Source) (b : jstring)
  : Clock (option Article) :=
  let title := get b (js "title") in
  let link := orElse (get b (js "link")) (gattr b (js "link") (js "href")) in
  if negb (truthy title) || negb (truthy link) then ret None
  else
    let pubDate :=
      orElse (get b (js "pubDate"))
             (orElse (get b (js "dc:date")) (get b (js "published"))) in
    d <- (if truthy pubDate then ret (dateParse rt pubDate)
          else now <- dateNow rt ;; ret (Some now)) ;;
    match d with
    | None => ret None
    | Some t =>
        let rawDesc := get b (js "description")
                         |> replaceWith anyTag [] |> trim |> slice0 300 in
        let thumb :=
          orElse (gattr b (js "media:thumbnail") (js "url"))
                 (orElse (gattr b (js "media:content") (js "url"))
                         (orElse (gattr b (js "enclosure") (js "url")) [])) in
        ret (Some {| title := decode title;
                     link := link;
                     description := decode rawDesc;
                     thumbnail := thumb;
                     pubDate := t;
                     source := name src;
                     sourceLabel := label src;
                     sourceColor := color src;
                     category := detectCat title rawDesc |})
    end.

Fixpoint parseBlocks (rt : Runtime) (src : Source) (blocks : list jstring)
  : Clock (list Article) :=
  match blocks with
  | [] => ret []
  | b :: blocks' =>
      r <- parseItem rt src b ;;
      items <- parseBlocks rt src blocks' ;;
      ret (match r with Some a => a :: items | None => items end)
  end.

Definition parseRSS (rt : Runtime) (xml : jstring) (src : Source)
  : Clock (list Article) :=
  parseBlocks rt src (itemBlocks xml).

(** [fetchSource] never rejects: a response that is not [ok] and an
    exception of the fetch both give the empty list. *)
Definition fetchSource (rt : Runtime) (fetch : Transport) (src : Source)
  : Clock (Settled (list Article)) :=
  match fetch (url src) with
  | Some text => items <- parseRSS rt text src ;; ret (Some items)
  | None => ret (Some [])
  end.

Definition gatherAll (rt : Runtime) (fetch : Transport)
           (sources : list Source) : Clock (list Article) :=
  results <- mapM (fetchSource rt fetch) sources ;;
  ret (fulfilledValues results).

(** [a.title.slice(0,70).toLowerCase().replace(/\s+/g,'')] *)
Definition dedupKey (rt : Runtime) (t : jstring) : jstring :=
  t |> slice0 70 |> lowerCase rt |> replaceWith spaces [].

(** The loop [for (const a of raw)] with its set [seen]. *)
Fixpoint dedupFrom (rt : Runtime) (seen : list jstring) (raw : list Article)
  : list Article :=
  match raw with
  | [] => []
  | a :: raw' =>
      if negb (truthy (title a)) || negb (truthy (link a))
      then dedupFrom rt seen raw'
      else
        let k := dedupKey rt (title a) in
        if existsb (jeqb k) seen then dedupFrom rt seen raw'
        else a :: dedupFrom rt (k :: seen) raw'
  end.

(** [(a,b) => new Date(b.pubDate) - new Date(a.pubDate)] *)
Definition byRecency (a b : Article) : Z := (pubDate b - pubDate a)%Z.

(** The articles of the response: deduplicated, then sorted in place. *)
Definition finalize (rt : Runtime) (raw : list Article) : list Article :=
  sortBy byRecency (dedupFrom rt [] raw).

Definition baseHeaders : list (string * string) :=
  [("Access-Control-Allow-Origin", "*");
   ("Access-Control-Allow-Methods", "GET,OPTIONS")]%string.

(** The response of the [catch] branch.  No operation of the [try] block
    throws on the values of this model, so no path of [handler] reaches
    it. *)
Definition failureResponse : Response Payload :=
  {| status := 500;
     headers := baseHeaders ++ [("Cache-Control", "s-maxage=600, stale-while-revalidate=60")%string];
     body := JsonError "Failed to fetch feeds" |}.

Definition handler (rt : Runtime) (fetch : Transport) (method : jstring)
  : Clock (Response Payload) :=
  if jeqb method (js "OPTIONS") then
    ret {| status := 200; headers := baseHeaders; body := Ended |}
  else
    raw <- gatherAll rt fetch SOURCES ;;
    let articles := finalize rt raw in
    now <- dateNow rt ;;
    ret {| status := 200;
           headers := baseHeaders ++ [("Cache-Control", "s-maxage=600, stale-while-revalidate=60")%string];
           body := Json {| ok := true; count := length articles;
                           fetchedAt := now; articles := articles |} |}.

End Vercel.

(* ================================================================== *)
(** ** CommonJS revision with the guarded cache
       (src/api/news.js, second document) *)

Module Lambda.

Record Source : Type := {
  label : jstring;
  url : jstring
}.

Record Article : Type := {
  title : jstring;
  link : jstring;
  description : jstring;
  thumbnail : jstring;
  pubDate : jstring;
  _pubTimestamp : Z;
  _sourceLabel : jstring
}.

Record Payload : Type := {
  ok : bool;
  count : nat;
  fetchedAt : Z;
  articles : list Article
}.

(** [let CACHE = { data: null, ts: 0 }]. *)
Record Cache : Type := {
  data : option Payload;
  ts : Z
}.

Definition initialCache : Cache := {| data := None; ts := 0 |}.

Definition CACHE_TTL : Z := 5 * 60 * 1000.

Definition SOURCES : list Source :=
  [ {| label := js "FL Cannabis";
       url := js "https://news.google.com/rss/search?q=florida+cannabis&hl=en-US&gl=US&ceid=US:en" |};
    {| label := js "FL Marijuana";
       url := js "https://news.google.com/rss/search?q=florida+marijuana&hl=en-US&gl=US&ceid=US:en" |};
    {| label := js "FL Hemp";
       url := js "https://news.google.com/rss/search?q=florida+hemp&hl=en-US&gl=US&ceid=US:en" |};
    {| label := js "FL Medical";
       url := js "https://news.google.com/rss/search?q=florida+%22medical+marijuana%22&hl=en-US&gl=US&ceid=US:en" |};
    {| label := js "FL Dispensary";
       url := js "https://news.google.com/rss/search?q=florida+dispensary+marijuana&hl=en-US&gl=US&ceid=US:en" |} ].

(** [get(urlStr, timeout)].  The function follows a redirect by calling
    itself after it has cleared its timer, with no count of the redirects,
    so [fuel] bounds the number of requests: the outer [None] says that
    the promise is not settled after [fuel] requests; [Some None] is a
    rejection and [Some (Some t)] a resolution with [t].  The status of a
    response that is not followed is not looked at. *)
Fixpoint get (web : Web) (fuel : nat) (urlStr : jstring)
  : option (option jstring) :=
  match fuel with
  | O => None
  | S fuel' =>
      match request web urlStr with
      | None => Some None
      | Some res =>
          if ((statusCode res =? 301) || (statusCode res =? 302))%Z
             && truthy (location res)
          then get web fuel' (location res)
          else Some (text res)
      end
  end.

Definition unescape (s : jstring) : jstring :=
  s |> replaceWith (lit (js "&amp;")) (js "&")
    |> replaceWith (lit (js "&lt;")) (js "<")
    |> replaceWith (lit (js "&gt;")) (js ">")
    |> replaceWith (lit (js "&quot;")) [dquote]
    |> replaceWith (lit (js "&#39;")) (js "'")
    |> replaceAll decimalRef
         (fun c => fromCharCode (numberOfDecimal (group c 1))).

(** [<name[^>]*><!\[CDATA\[([\s\S]*?)\]\]>] and
    [<name[^>]*>([\s\S]*?)<\/name>], both under the flag [i]. *)
Definition cdataRe (name : jstring) : regex :=
  seqs [litCI (js "<" ++ name); Rep false 0 notGt; litCI (js "><![CDATA[");
        Cap 1 (Rep true 0 anyUnit); litCI (js "]]>")].

Definition plainRe (name : jstring) : regex :=
  seqs [litCI (js "<" ++ name); Rep false 0 notGt; litCI (js ">");
        Cap 1 (Rep true 0 anyUnit); litCI (js "</" ++ name ++ js ">")].

Definition tag (xml name : jstring) : jstring :=
  let m := match search (cdataRe name) xml with
           | Some (c, _) => Some c
           | None =>
               match search (plainRe name) xml with
               | Some (c, _) => Some c
               | None => None
               end
           end in
  match m with
  | None => []
  | Some m =>
      unescape (group m 1 |> replaceWith anyTag (js " ")
                          |> replaceWith spaces (js " ")
                          |> trim)
  end.

(** [/<link>([^<]+)<\/link>/], without the flag [i]. *)
Definition linkRe : regex :=
  seqs [lit (js "<link>"); Cap 1 (Rep false 1 notLt); lit (js "</link>")].

(** [/<description[^>]*>([\s\S]*?)<\/description>/i] *)
Definition descriptionRe : regex := plainRe (js "description").

(** The body of the loop of [parseItems] for one block. *)
Definition parseItem (rt : Runtime) (label : jstring) (b : jstring)
  : Clock (option Article) :=
  let title := tag b (js "title") in
  let linkMatch :=
    match firstGroup linkRe b with
    | Some l => Some l
    | None => firstGroup (attrRe (js "link") (js "href")) b
    end in
  let link := match linkMatch with
              | Some l => unescape (trim l)
              | None => []
              end in
  if negb (truthy title) || negb (truthy link) then ret None
  else
    let pubDate := orElse (tag b (js "pubDate")) (orElse (tag b (js "dc:date")) []) in
    ts <- (if truthy pubDate then ret (dateParse rt pubDate)
           else now <- dateNow rt ;; ret (Some now)) ;;
    let mc := firstGroup (attrRe (js "media:content") (js "url")) b in
    let mt := firstGroup (attrRe (js "media:thumbnail") (js "url")) b in
    let enc := firstGroup (attrRe (js "enclosure") (js "url")) b in
    let rawDesc := firstGroup descriptionRe b in
    let imgInDesc :=
      match rawDesc with
      | Some d => firstGroup (attrRe (js "img") (js "src")) d
      | None => None
      end in
    let thumb :=
      match mc, mt, enc, imgInDesc with
      | Some u, _, _, _ => u
      | None, Some u, _, _ => u
      | None, None, Some u, _ => u
      | None, None, None, Some u => u
      | None, None, None, None => []
      end in
    let desc :=
      match rawDesc with
      | Some d => d |> replaceWith anyTag (js " ")
                    |> replaceWith spaces (js " ")
                    |> trim |> unescape |> slice0 260
      | None => []
      end in
    stamp <- match ts with
             | None => dateNow rt
             | Some t => ret t
             end ;;
    ret (Some {| title := title;
                 link := link;
                 description := desc;
                 thumbnail := if startsWith thumb (js "http") then thumb else [];
                 pubDate := pubDate;
                 _pubTimestamp := stamp;
                 _sourceLabel := label |}).

Fixpoint parseBlocks (rt : Runtime) (label : jstring) (blocks : list jstring)
  : Clock (list Article) :=
  match blocks with
  | [] => ret []
  | b :: blocks' =>
      r <- parseItem rt label b ;;
      out <- parseBlocks rt label blocks' ;;
      ret (match r with Some a => a :: out | None => out end)
  end.

Definition parseItems (rt : Runtime) (xml label : jstring)
  : Clock (list Article) :=
  parseBlocks rt label (itemBlocks xml).

(** [a.title.slice(0, 60).toLowerCase().replace(/\W/g, '')] *)
Definition dedupKey (t : jstring) : jstring :=
  t |> slice0 60 |> toLowerCase
    |> replaceWith (Chr (fun c => negb (isWord c))) [].

Fixpoint dedupFrom (seen : list jstring) (raw : list Article)
  : list Article :=
  match raw with
  | [] => []
  | a :: raw' =>
      let key := dedupKey (title a) in
      if existsb (jeqb key) seen then dedupFrom seen raw'
      else a :: dedupFrom (key :: seen) raw'
  end.

Definition byRecency (a b : Article) : Z :=
  (_pubTimestamp b - _pubTimestamp a)%Z.

(** [raw.filter(...).sort(...).slice(0, 100)] *)
Definition finalize (raw : list Article) : list Article :=
  firstn 100 (sortBy byRecency (dedupFrom [] raw)).

Definition cacheControl : string * string :=
  ("Cache-Control", "public, s-maxage=300, stale-while-revalidate=60")%string.

Definition fetchAndParse (rt : Runtime) (get : Transport) (s : Source)
  : Clock (Settled (list Article)) :=
  match get (url s) with
  | Some xml => items <- parseItems rt xml (label s) ;; ret (Some items)
  | None => ret None
  end.

Definition gatherAll (rt : Runtime) (get : Transport)
           (sources : list Source) : Clock (list Article) :=
  results <- mapM (fetchAndParse rt get) sources ;;
  ret (fulfilledValues results).

(** [if (articles.length > 0) CACHE = { data: payload, ts: Date.now() }] *)
Definition store (rt : Runtime) (payload : Payload) (cache : Cache)
  : Clock Cache :=
  if (0 <? length (articles payload))%nat
  then now <- dateNow rt ;; ret {| data := Some payload; ts := now |}
  else ret cache.

(** The test [CACHE.data && Date.now() - CACHE.ts < CACHE_TTL]. *)
Definition isFresh (rt : Runtime) (cache : Cache) : Clock bool :=
  match data cache with
  | None => ret false
  | Some _ => now <- dateNow rt ;; ret (now - ts cache <? CACHE_TTL)%Z
  end.

(** The handler past the test of the cache. *)
Definition rebuild (rt : Runtime) (get : Transport) (cache : Cache)
  : Clock (Response Payload * Cache) :=
  raw <- gatherAll rt get SOURCES ;;
  let articles := finalize raw in
  now <- dateNow rt ;;
  let payload := {| ok := true; count := length articles;
                    fetchedAt := now; articles := articles |} in
  cache' <- store rt payload cache ;;
  ret ({| status := 200;
          headers := corsHeaders ++ [("X-Cache", "MISS")%string; cacheControl];
          body := Json payload |}, cache').

Definition handler (rt : Runtime) (get : Transport) (method : jstring)
           (cache : Cache) : Clock (Response Payload * Cache) :=
  if jeqb method (js "OPTIONS") then
    ret ({| status := 204; headers := corsHeaders; body := Ended |}, cache)
  else
    fresh <- isFresh rt cache ;;
    match fresh, data cache with
    | true, Some p =>
        ret ({| status := 200;
                headers := corsHeaders ++ [("X-Cache", "HIT")%string; cacheControl];
                body := Json p |}, cache)
    | _, _ => rebuild rt get cache
    end.

End Lambda.

(* ================================================================== *)
(** * Vocabulary of the statements *)

(** [w] occurs in [s] as a substring. *)
Definition occursIn (w s : jstring) : Prop :=
  exists pre post, s = pre ++ w ++ post.

(** The response of a cache hit: the stored payload, marked [HIT].  The
    two revisions with a cache send the same headers. *)
Definition hitResponse {P : Type} (p : P) : Response P :=
  {| status := 200;
     headers := corsHeaders ++
                [("X-Cache", "HIT"); FloridaTrees.cacheControl]%string;
     body := Json p |}.

(** The sources whose fetch succeeds, each with its document, in the order
    of the configuration. *)
Definition successes {S : Type} (url : S -> jstring) (fetch : Transport)
           (sources : list S) : list (S * jstring) :=
  flat_map (fun s => match fetch (url s) with
                     | Some xml => [(s, xml)]
                     | None => []
                     end) sources.

(** The concatenation of the lists that [parse] gives for the documents
    of [docs], parsed one after the other: the first document is parsed
    from the reading [t] of the clock on, each later one from the reading
    that the parse before it stopped at. *)
Fixpoint parseAndConcat {S A : Type} (parse : jstring -> S -> Clock (list A))
         (docs : list (S * jstring)) (t : nat) : list A * nat :=
  match docs with
  | [] => ([], t)
  | (s, xml) :: docs' =>
      let (items, t1) := parse xml s t in
      let (rest, t2) := parseAndConcat parse docs' t1 in
      (items ++ rest, t2)
  end.

(** The response of a rebuild that found no article. *)
Definition emptyMissResponse {P : Type} (emptyPayload : P) : Response P :=
  {| status := 200;
     headers := corsHeaders ++
                [("X-Cache", "MISS"); FloridaTrees.cacheControl]%string;
     body := Json emptyPayload |}.

(** The comparator [(a, b) => key(b) - key(a)] of the three handlers. *)
Definition descendingBy (A : Type) (key : A -> Z) (a b : A) : Z :=
  (key b - key a)%Z.

(** Most recent first. *)
Definition Descending (A : Type) (key : A -> Z) (l : list A) : Prop :=
  StronglySorted (fun a b => (key a >= key b)%Z) l.

(** The elements of [l] whose key is [k], in the order of [l]. *)
Definition withKey (A : Type) (key : A -> Z) (k : Z) (l : list A) : list A :=
  filter (fun a => (key a =? k)%Z) l.


(** First-seen-wins over a key: the filter that the three revisions
    write with a [Set]. *)
Fixpoint keepFirst (A : Type) (key : A -> jstring) (seen : list jstring)
         (l : list A) : list A :=
  match l with
  | [] => []
  | a :: l' =>
      if existsb (jeqb (key a)) seen then keepFirst key seen l'
      else a :: keepFirst key (key a :: seen) l'
  end.

(** The test of the loop of the ES-module handler that precedes the key. *)
Definition hasTitleAndLink (a : Vercel.Article) : bool :=
  truthy (Vercel.title a) && truthy (Vercel.link a).

(** A unit that leaves nothing in the key of the revision with the
    relevance gate: its lower-case form has no unit of [[a-z0-9]]. *)
Definition leavesNoKey (c : N) : bool :=
  forallb (fun u => negb (isLowerAlnum u)) (lowerUnit c).


Definition keyOfA (a : FloridaTrees.Article) : jstring :=
  FloridaTrees.dedupKey (FloridaTrees.title a).
Definition keyOfB (rt : Runtime) (a : Vercel.Article) : jstring :=
  Vercel.dedupKey rt (Vercel.title a).
Definition keyOfC (a : Lambda.Article) : jstring :=
  Lambda.dedupKey (Lambda.title a).

(** The articles among the results of the loop bodies. *)
Fixpoint emitted {A : Type} (results : list (option A)) : list A :=
  match results with
  | [] => []
  | Some a :: rs => a :: emitted rs
  | None :: rs => emitted rs
  end.

(** The loop over the blocks, for any loop body. *)
Fixpoint collectItems {A : Type} (body : jstring -> Clock (option A))
         (blocks : list jstring) : Clock (list A) :=
  match blocks with
  | [] => ret []
  | b :: blocks' =>
      r <- body b ;;
      items <- collectItems body blocks' ;;
      ret (match r with Some a => a :: items | None => items end)
  end.

(** The fields that the loop body of the revision with the relevance gate
    extracts from a block. *)
Definition titleOfA (b : jstring) : jstring :=
  FloridaTrees.getTag b (js "title").
Definition linkOfA (b : jstring) : jstring :=
  orElse (FloridaTrees.getTag b (js "link"))
         (orElse (FloridaTrees.getTag b (js "guid")) []).
Definition descOfA (b : jstring) : jstring :=
  FloridaTrees.getRawTag b (js "description")
    |> replaceWith anyTag (js " ") |> replaceWith spaces (js " ")
    |> trim |> slice0 280.
Definition pubDateOfA (b : jstring) : jstring :=
  orElse (FloridaTrees.getTag b (js "pubDate"))
         (orElse (FloridaTrees.getTag b (js "dc:date")) []).

(** The same for the ES-module revision. *)
Definition titleOfB (b : jstring) : jstring := Vercel.get b (js "title").
Definition linkOfB (b : jstring) : jstring :=
  orElse (Vercel.get b (js "link")) (Vercel.gattr b (js "link") (js "href")).
Definition pubDateOfB (b : jstring) : jstring :=
  orElse (Vercel.get b (js "pubDate"))
         (orElse (Vercel.get b (js "dc:date")) (Vercel.get b (js "published"))).

(** The same for the CommonJS revision. *)
Definition titleOfC (b : jstring) : jstring := Lambda.tag b (js "title").
Definition linkOfC (b : jstring) : jstring :=
  match match firstGroup Lambda.linkRe b with
        | Some l => Some l
        | None => firstGroup (attrRe (js "link") (js "href")) b
        end with
  | Some l => Lambda.unescape (trim l)
  | None => []
  end.
Definition pubDateOfC (b : jstring) : jstring :=
  orElse (Lambda.tag b (js "pubDate")) (orElse (Lambda.tag b (js "dc:date")) []).

(** The time value of the date of a block: the parsed string when there
    is one, the clock otherwise; [None] for an invalid date. *)
Definition timeOf (rt : Runtime) (pubDate : jstring) : Clock (option Z) :=
  if truthy pubDate then ret (dateParse rt pubDate)
  else now <- dateNow rt ;; ret (Some now).

Definition descOfC (b : jstring) : jstring :=
  match firstGroup Lambda.descriptionRe b with
  | Some d => d |> replaceWith anyTag (js " ") |> replaceWith spaces (js " ")
                |> trim |> Lambda.unescape |> slice0 260
  | None => []
  end.

Definition thumbOfC (b : jstring) : jstring :=
  let imgInDesc :=
    match firstGroup Lambda.descriptionRe b with
    | Some d => firstGroup (attrRe (js "img") (js "src")) d
    | None => None
    end in
  match firstGroup (attrRe (js "media:content") (js "url")) b,
        firstGroup (attrRe (js "media:thumbnail") (js "url")) b,
        firstGroup (attrRe (js "enclosure") (js "url")) b,
        imgInDesc with
  | Some u, _, _, _ => u
  | None, Some u, _, _ => u
  | None, None, Some u, _ => u
  | None, None, None, Some u => u
  | None, None, None, None => []
  end.

(** A decimal and a hexadecimal character reference. *)
Definition decimalReference (digits : jstring) : jstring :=
  js "&#" ++ digits ++ js ";".
Definition hexReference (digits : jstring) : jstring :=
  js "&#x" ++ digits ++ js ";".

(** A pattern that can only match at an ampersand. *)
Definition ampFirst (r : regex) : Prop :=
  forall s, match s with x :: _ => x <> 38%N | [] => True end ->
            matchAt r s = None.

(** The decimal references of the table of [decode]. *)
Definition decodeTable : list jstring :=
  [js "039"; js "8217"; js "8220"; js "8221"; js "8230"].



(** The test of [get] for a response that it follows. *)
Definition isMoved (res : Reply) : bool :=
  ((statusCode res =? 301) || (statusCode res =? 302))%Z
  && truthy (location res).

(** The same for [get], which follows the [location] as it is. *)
Inductive MovedChain (web : Web) : jstring -> list jstring -> jstring -> Prop :=
| moved_end (u : jstring) : MovedChain web u [] u
| moved_hop (u : jstring) (hops : list jstring) (final : jstring)
            (res : Reply) :
    request web u = Some res ->
    isMoved res = true ->
    MovedChain web (location res) hops final ->
    MovedChain web u (location res :: hops) final.

(** The text that the two classifiers look at. *)
Definition classifiedText (title desc : jstring) : jstring :=
  toLowerCase (title ++ js " " ++ desc).

(** No keyword of the list occurs in the text. *)
Definition noneOccurs (kws : list jstring) (text : jstring) : Prop :=
  forall k, In k kws -> ~ occursIn k text.

(** What every article of the revision with the relevance gate satisfies
    when it comes from [source]. *)
Definition wellFormedA (source : FloridaTrees.Source)
           (a : FloridaTrees.Article) : Prop :=
  FloridaTrees.title a <> [] /\
  startsWith (FloridaTrees.link a) (js "http") = true /\
  length (FloridaTrees.description a) <= 280 /\
  (FloridaTrees.thumbnail a = [] \/
   startsWith (FloridaTrees.thumbnail a) (js "http") = true) /\
  FloridaTrees.isRelevant (FloridaTrees.title a) (FloridaTrees.description a)
  = true /\
  FloridaTrees._source a = FloridaTrees.name source /\
  FloridaTrees._sourceLabel a = FloridaTrees.label source.

(** The same for the CommonJS revision and a source label. *)
Definition wellFormedC (label : jstring) (a : Lambda.Article) : Prop :=
  Lambda.title a <> [] /\
  Lambda.link a <> [] /\
  length (Lambda.description a) <= 260 /\
  (Lambda.thumbnail a = [] \/
   startsWith (Lambda.thumbnail a) (js "http") = true) /\
  Lambda._sourceLabel a = label.

(** The labels that [detectCat] can give. *)
Definition categoryLabels : list jstring :=
  map fst Vercel.CATS ++ [js "general"].

(** The same for the ES-module revision. *)
Definition wellFormedB (src : Vercel.Source) (a : Vercel.Article) : Prop :=
  Vercel.title a <> [] /\
  Vercel.link a <> [] /\
  length (Vercel.description a) <= 300 /\
  In (Vercel.category a) categoryLabels /\
  Vercel.source a = Vercel.name src /\
  Vercel.sourceLabel a = Vercel.label src /\
  Vercel.sourceColor a = Vercel.color src.

(** What every payload that the revision with the relevance gate builds
    satisfies. *)
Definition wellFormedPayloadA (p : FloridaTrees.Payload) : Prop :=
  FloridaTrees.ok p = true /\
  FloridaTrees.count p = length (FloridaTrees.articles p) /\
  length (FloridaTrees.articles p) <= 120 /\
  Descending FloridaTrees._pubTimestamp (FloridaTrees.articles p) /\
  NoDup (map keyOfA (FloridaTrees.articles p)) /\
  Forall (fun a => exists source,
              In source FloridaTrees.SOURCES /\ wellFormedA source a)
         (FloridaTrees.articles p).

(** The same for the CommonJS revision. *)
Definition wellFormedPayloadC (p : Lambda.Payload) : Prop :=
  Lambda.ok p = true /\
  Lambda.count p = length (Lambda.articles p) /\
  length (Lambda.articles p) <= 100 /\
  Descending Lambda._pubTimestamp (Lambda.articles p) /\
  NoDup (map keyOfC (Lambda.articles p)) /\
  Forall (fun a => exists source,
              In source Lambda.SOURCES /\ wellFormedC (Lambda.label source) a)
         (Lambda.articles p).

(** The same for the ES-module revision, which does not bound the
    number of articles. *)
Definition wellFormedPayloadB (rt : Runtime) (p : Vercel.Payload) : Prop :=
  Vercel.ok p = true /\
  Vercel.count p = length (Vercel.articles p) /\
  Descending Vercel.pubDate (Vercel.articles p) /\
  NoDup (map (keyOfB rt) (Vercel.articles p)) /\
  Forall (fun a => exists src, In src Vercel.SOURCES /\ wellFormedB src a)
         (Vercel.articles p).

(** The states of the cache that the process can be in: the initial one,
    and the one that any request leaves from such a state. *)
Inductive ReachableA : FloridaTrees.Cache -> Prop :=
| reachableA_initial : ReachableA FloridaTrees.initialCache
| reachableA_request rt fetch method cache t :
    ReachableA cache ->
    ReachableA (snd (fst (FloridaTrees.handler rt fetch method cache t))).

Inductive ReachableC : Lambda.Cache -> Prop :=
| reachableC_initial : ReachableC Lambda.initialCache
| reachableC_request rt get method cache t :
    ReachableC cache ->
    ReachableC (snd (fst (Lambda.handler rt get method cache t))).

(** ** Sample inputs *)

(** A runtime for the examples.  Its clock reads [start], [start + 1],
    ...; its date parser reads the date written below and takes every
    other string for an invalid date; its lower-casing is [toLowerCase],
    which is that of the engine on the ASCII text of the examples. *)
Definition sampleRuntime (start : Z) : Runtime :=
  {| clockAt := fun k => (start + Z.of_nat k)%Z;
     dateParse := fun s =>
       if jeqb s (js "Thu, 01 Jan 2026 00:00:00 GMT")
       then Some 1767225600000%Z else None;
     lowerCase := toLowerCase |}.

(** A transport in which every fetch fails. *)
Definition outage : Transport := fun _ => None.

Definition sampleSourceA : FloridaTrees.Source :=
  {| FloridaTrees.name := js "Florida Marijuana";
     FloridaTrees.label := js "FL Marijuana";
     FloridaTrees.url := js "https://news.google.com/rss/search?q=florida+marijuana&hl=en-US&gl=US&ceid=US:en" |}.

Definition sampleSourceB : Vercel.Source :=
  {| Vercel.name := js "Leafly News"; Vercel.label := js "Leafly";
     Vercel.color := js "#71bf44";
     Vercel.url := js "https://www.leafly.com/news/rss.xml" |}.

Definition hempSource : FloridaTrees.Source :=
  {| FloridaTrees.name := js "Florida Hemp";
     FloridaTrees.label := js "FL Hemp";
     FloridaTrees.url := js "https://news.google.com/rss/search?q=florida+hemp&hl=en-US&gl=US&ceid=US:en" |}.

(** A block that passes every gate of every revision. *)
Definition floridaBlock : jstring :=
  js "<title>Florida Hemp Bill Advances</title><link>https://example.com/fl</link><pubDate>Thu, 01 Jan 2026 00:00:00 GMT</pubDate>".

(** A block with a title and an absolute link, about another state. *)
Definition californiaBlock : jstring :=
  js "<title>California Marijuana Bill</title><link>https://example.com/ca</link>".

(** A block whose link has no scheme. *)
Definition relativeLinkBlock : jstring :=
  js "<title>Florida Marijuana Bill</title><link>/news/florida-bill</link>".

(** A block with a title, an absolute link and a date that no parser
    reads. *)
Definition undatedBlock : jstring :=
  js "<title>Florida Hemp Bill Advances</title><link>https://example.com/fl</link><pubDate>not a date</pubDate>".

(** A transport in which the fetch of [sampleSourceA] answers with a feed
    of one item and every other fetch fails. *)
Definition partialOutage : Transport :=
  fun u => if jeqb u (FloridaTrees.url sampleSourceA)
           then Some (js "<rss><channel><item>" ++ floridaBlock
                         ++ js "</item></channel></rss>")
           else None.

Definition sampleArticle : FloridaTrees.Article :=
  {| FloridaTrees.title := js "Florida hemp rules advance";
     FloridaTrees.link := js "https://example.com/hemp";
     FloridaTrees.description := [];
     FloridaTrees.thumbnail := [];
     FloridaTrees.pubDate := js "Thu, 01 Jan 2026 00:00:00 GMT";
     FloridaTrees._pubTimestamp := 1767225600000;
     FloridaTrees._source := js "Florida Hemp";
     FloridaTrees._sourceLabel := js "FL Hemp" |}.

Definition warmPayload : FloridaTrees.Payload :=
  {| FloridaTrees.ok := true; FloridaTrees.count := 1;
     FloridaTrees.fetchedAt := 1000;
     FloridaTrees.articles := [sampleArticle] |}.

(** A cache that holds one article, stored at time 1000. *)
Definition warmCache : FloridaTrees.Cache :=
  {| FloridaTrees.data := Some warmPayload; FloridaTrees.ts := 1000 |}.

(** An article of the revision with the relevance gate with a given
    title. *)
Definition storyA (t : jstring) (published : Z) : FloridaTrees.Article :=
  {| FloridaTrees.title := t;
     FloridaTrees.link := js "https://example.com/story";
     FloridaTrees.description := [];
     FloridaTrees.thumbnail := [];
     FloridaTrees.pubDate := [];
     FloridaTrees._pubTimestamp := published;
     FloridaTrees._source := js "Florida Hemp";
     FloridaTrees._sourceLabel := js "FL Hemp" |}.


(** The [i]-th of a run of articles with pairwise distinct titles of two
    lower-case letters. *)
Definition numbered (i : nat) : Vercel.Article :=
  {| Vercel.title := [97 + N.of_nat (i / 26); 97 + N.of_nat (i mod 26)]%N;
     Vercel.link := js "https://example.com/story";
     Vercel.description := [];
     Vercel.thumbnail := [];
     Vercel.pubDate := Z.of_nat i;
     Vercel.source := js "Leafly News";
     Vercel.sourceLabel := js "Leafly";
     Vercel.sourceColor := js "#71bf44";
     Vercel.category := js "general" |}.

Definition manyArticles : list Vercel.Article := map numbered (seq 0 121).

(** A web of three pages: [http://old.example/feed] moves to
    [https://new.example/feed], which answers 200; [https://gone.example/]
    answers 404 with an error page; every other URL moves to itself. *)
Definition sampleWeb : Web :=
  {| request := fun u =>
       if jeqb u (js "http://old.example/feed") then
         Some {| statusCode := 301; location := js "https://new.example/feed";
                 text := Some [] |}
       else if jeqb u (js "https://new.example/feed") then
         Some {| statusCode := 200; location := [];
                 text := Some (js "<rss></rss>") |}
       else if jeqb u (js "https://gone.example/") then
         Some {| statusCode := 404; location := [];
                 text := Some (js "Not Found") |}
       else Some {| statusCode := 302; location := u; text := Some [] |};
     resolveUrl := fun l u => u ++ l |}.

(** A web in which every URL moves to one and the same URL. *)
Definition loopWeb : Web :=
  {| request := fun _ =>
       Some {| statusCode := 302; location := js "https://loop.example/";
               text := Some [] |};
     resolveUrl := fun l u => u ++ l |}.

(** A transport for the ES-module revision in which the fetch of
    [sampleSourceB] answers with a feed of one item and every other fetch
    fails. *)
Definition partialOutageB : Transport :=
  fun u => if jeqb u (Vercel.url sampleSourceB)
           then Some (js "<rss><channel><item>" ++ floridaBlock
                         ++ js "</item></channel></rss>")
           else None.

(** A transport for the CommonJS revision in which every fetch answers
    with a feed of one item. *)
Definition allUp : Transport :=
  fun _ => Some (js "<rss><channel><item>" ++ floridaBlock
                    ++ js "</item></channel></rss>").

(** The cache of the CommonJS revision after a first request that found
    every source up. *)
Definition warmCacheC : Lambda.Cache :=
  snd (fst (Lambda.handler (sampleRuntime 0) allUp (js "GET")
                           Lambda.initialCache 0)).

(** The [i]-th of a run of articles of the revision with the relevance
    gate with pairwise distinct titles, the later ones more recent. *)
Definition numberedA (i : nat) : FloridaTrees.Article :=
  storyA [97 + N.of_nat (i / 26); 97 + N.of_nat (i mod 26)]%N (Z.of_nat i).

Definition manyArticlesA : list FloridaTrees.Article :=
  map numberedA (seq 0 121).

(* ================================================================== *)
(** * Properties *)


(** ** Strings *)

Lemma startsWith_prefix (s p : jstring) :
  startsWith s p = true <-> exists post, s = p ++ post.
Proof.
  revert s; induction p as [|y p IH]; intros s; simpl.
  - split; [exists s; reflexivity | reflexivity].
  - destruct s as [|x s]; [split; [discriminate | intros [post H]; discriminate]|].
    rewrite andb_true_iff, N.eqb_eq, IH. split.
    + intros [-> [post ->]]. exists post; reflexivity.
    + intros [post H]; injection H as -> ->. split; [reflexivity | exists post; reflexivity].
Qed.

Lemma includes_occursIn (s w : jstring) :
  includes s w = true <-> occursIn w s.
Proof.
  unfold occursIn. induction s as [|x s IH].
  - simpl. rewrite orb_false_r, startsWith_prefix. split.
    + intros [post H]. exists [], post. exact H.
    + intros [[|a pre] [post H]]; [exists post; exact H | discriminate].
  - cbn [includes]. rewrite orb_true_iff, startsWith_prefix, IH. split.
    + intros [[post H] | [pre [post H]]].
      * exists [], post. exact H.
      * exists (x :: pre), post. rewrite H. reflexivity.
    + intros [[|a pre] [post H]].
      * left. exists post. exact H.
      * right. injection H as _ H. exists pre, post. exact H.
Qed.

(** ** The clock *)

Lemma bind_run (A B : Type) (m : Clock A) (f : A -> Clock B) (t : nat) :
  bind m f t = f (fst (m t)) (snd (m t)).
Proof. unfold bind. destruct (m t); reflexivity. Qed.

Lemma ret_run (A : Type) (a : A) (t : nat) : ret a t = (a, t).
Proof. reflexivity. Qed.

(** ** Admission filter *)

(** C9.  The admission filter of the revision with the relevance gate
    lower-cases [title + ' ' + desc] and admits the pair exactly when some
    region keyword and some topic keyword (brand names included) occur in
    that text as substrings.  The title [Florida House Advances Marijuana
    Bill] with an empty description is admitted; the title [California
    Marijuana Bill] is rejected; a brand name counts as a topic keyword. *)
Theorem C9_admission_filter :
  (forall title desc : jstring,
      let text := toLowerCase (title ++ js " " ++ desc) in
      FloridaTrees.isRelevant title desc = true <->
      (exists w, In w FloridaTrees.FL_WORDS /\ occursIn w text) /\
      (exists w, In w FloridaTrees.CANNA_WORDS /\ occursIn w text))
  /\ FloridaTrees.isRelevant (js "Florida House Advances Marijuana Bill") [] = true
  /\ FloridaTrees.isRelevant (js "California Marijuana Bill") [] = false
  /\ FloridaTrees.isRelevant (js "Trulieve Opens New Store") (js "A first for Florida")
     = true.
Proof.
  split; [|repeat split; vm_compute; reflexivity].
  intros title desc text. unfold FloridaTrees.isRelevant. fold text.
  rewrite andb_true_iff, !existsb_exists.
  split; intros [[w1 [H1 O1]] [w2 [H2 O2]]]; (split; [exists w1 | exists w2]);
    (split; [assumption | apply includes_occursIn; assumption]).
Qed.

(** ** Result cache *)

Lemma FloridaTrees_rebuild_miss rt fetch cache t :
  header (fst (fst (FloridaTrees.rebuild rt fetch cache t))) "X-Cache"
  = Some "MISS"%string.
Proof.
  unfold FloridaTrees.rebuild. rewrite !bind_run. reflexivity.
Qed.

Lemma Lambda_rebuild_miss rt get cache t :
  header (fst (fst (Lambda.rebuild rt get cache t))) "X-Cache"
  = Some "MISS"%string.
Proof.
  unfold Lambda.rebuild. rewrite !bind_run. reflexivity.
Qed.

Lemma FloridaTrees_handler_get rt fetch method cache p t :
  jeqb method (js "OPTIONS") = false ->
  FloridaTrees.data cache = Some p ->
  FloridaTrees.handler rt fetch method cache t =
  if (clockAt rt t - FloridaTrees.ts cache <? FloridaTrees.CACHE_TTL)%Z
  then (hitResponse p, cache, S t)
  else FloridaTrees.rebuild rt fetch cache (S t).
Proof.
  intros Hm Hd. unfold FloridaTrees.handler. rewrite Hm, bind_run.
  unfold FloridaTrees.isFresh. rewrite Hd, bind_run. cbn [dateNow fst snd ret].
  destruct (_ <? _)%Z; reflexivity.
Qed.

Lemma Lambda_handler_get rt get method cache p t :
  jeqb method (js "OPTIONS") = false ->
  Lambda.data cache = Some p ->
  Lambda.handler rt get method cache t =
  if (clockAt rt t - Lambda.ts cache <? Lambda.CACHE_TTL)%Z
  then (hitResponse p, cache, S t)
  else Lambda.rebuild rt get cache (S t).
Proof.
  intros Hm Hd. unfold Lambda.handler. rewrite Hm, bind_run.
  unfold Lambda.isFresh. rewrite Hd, bind_run. cbn [dateNow fst snd ret].
  destruct (_ <? _)%Z; reflexivity.
Qed.

(** C6.  In the two revisions with a cache, a request (other than
    [OPTIONS]) that finds a payload stored at [builtAt] and reads the clock
    as [now] is answered from the cache when [now - builtAt < TTL]: the
    stored payload is returned unchanged, the cache is left as it is, the
    transport is not consulted and the clock is read once.  When
    [now - builtAt >= TTL], and when nothing is stored, the request is a
    miss: the handler runs the rebuild, whose response is marked [MISS].
    The TTL is 300000 ms; [now = builtAt + TTL - 1] is a hit and
    [now = builtAt + TTL + 1] is a miss. *)
Theorem C6_cache_freshness :
  (forall rt fetch method cache p t,
      jeqb method (js "OPTIONS") = false ->
      FloridaTrees.data cache = Some p ->
      let now := clockAt rt t in
      let builtAt := FloridaTrees.ts cache in
      ((now - builtAt < FloridaTrees.CACHE_TTL)%Z ->
       FloridaTrees.handler rt fetch method cache t
       = (hitResponse p, cache, S t)) /\
      ((now - builtAt >= FloridaTrees.CACHE_TTL)%Z ->
       FloridaTrees.handler rt fetch method cache t
       = FloridaTrees.rebuild rt fetch cache (S t)) /\
      (now = builtAt + FloridaTrees.CACHE_TTL - 1 ->
       FloridaTrees.handler rt fetch method cache t
       = (hitResponse p, cache, S t))%Z /\
      (now = builtAt + FloridaTrees.CACHE_TTL + 1 ->
       FloridaTrees.handler rt fetch method cache t
       = FloridaTrees.rebuild rt fetch cache (S t))%Z)
  /\
  (forall rt fetch method cache t,
      jeqb method (js "OPTIONS") = false ->
      FloridaTrees.data cache = None ->
      FloridaTrees.handler rt fetch method cache t
      = FloridaTrees.rebuild rt fetch cache t)
  /\
  (forall rt fetch cache t,
      header (fst (fst (FloridaTrees.rebuild rt fetch cache t))) "X-Cache"
      = Some "MISS"%string)
  /\
  (forall rt get method cache p t,
      jeqb method (js "OPTIONS") = false ->
      Lambda.data cache = Some p ->
      let now := clockAt rt t in
      let builtAt := Lambda.ts cache in
      ((now - builtAt < Lambda.CACHE_TTL)%Z ->
       Lambda.handler rt get method cache t = (hitResponse p, cache, S t)) /\
      ((now - builtAt >= Lambda.CACHE_TTL)%Z ->
       Lambda.handler rt get method cache t
       = Lambda.rebuild rt get cache (S t)) /\
      (now = builtAt + Lambda.CACHE_TTL - 1 ->
       Lambda.handler rt get method cache t
       = (hitResponse p, cache, S t))%Z /\
      (now = builtAt + Lambda.CACHE_TTL + 1 ->
       Lambda.handler rt get method cache t
       = Lambda.rebuild rt get cache (S t))%Z)
  /\
  (forall rt get method cache t,
      jeqb method (js "OPTIONS") = false ->
      Lambda.data cache = None ->
      Lambda.handler rt get method cache t = Lambda.rebuild rt get cache t)
  /\
  (forall rt get cache t,
      header (fst (fst (Lambda.rebuild rt get cache t))) "X-Cache"
      = Some "MISS"%string)
  /\ FloridaTrees.CACHE_TTL = 300000%Z /\ Lambda.CACHE_TTL = 300000%Z.
Proof.
  repeat apply conj.
  - intros rt fetch method cache p t Hm Hd now builtAt. subst now builtAt.
    rewrite (FloridaTrees_handler_get rt fetch method cache t Hm Hd).
    repeat apply conj; intros H.
    + apply Z.ltb_lt in H. rewrite H. reflexivity.
    + apply Z.ge_le, Z.ltb_ge in H. rewrite H. reflexivity.
    + replace (_ <? _)%Z with true; [reflexivity|]. symmetry. apply Z.ltb_lt. lia.
    + replace (_ <? _)%Z with false; [reflexivity|]. symmetry. apply Z.ltb_ge. lia.
  - intros rt fetch method cache t Hm Hd. unfold FloridaTrees.handler.
    rewrite Hm, bind_run. unfold FloridaTrees.isFresh. rewrite Hd. reflexivity.
  - apply FloridaTrees_rebuild_miss.
  - intros rt get method cache p t Hm Hd now builtAt. subst now builtAt.
    rewrite (Lambda_handler_get rt get method cache t Hm Hd).
    repeat apply conj; intros H.
    + apply Z.ltb_lt in H. rewrite H. reflexivity.
    + apply Z.ge_le, Z.ltb_ge in H. rewrite H. reflexivity.
    + replace (_ <? _)%Z with true; [reflexivity|]. symmetry. apply Z.ltb_lt. lia.
    + replace (_ <? _)%Z with false; [reflexivity|]. symmetry. apply Z.ltb_ge. lia.
  - intros rt get method cache t Hm Hd. unfold Lambda.handler.
    rewrite Hm, bind_run. unfold Lambda.isFresh. rewrite Hd. reflexivity.
  - apply Lambda_rebuild_miss.
  - reflexivity.
  - reflexivity.
Qed.

(** ** Fetch orchestrator *)

Lemma successes_app (S : Type) (url : S -> jstring) fetch (l1 l2 : list S) :
  successes url fetch (l1 ++ l2)
  = successes url fetch l1 ++ successes url fetch l2.
Proof. unfold successes. apply flat_map_app. Qed.

Lemma successes_none (S : Type) (url : S -> jstring) fetch (l : list S) :
  (forall s, In s l -> fetch (url s) = None) -> successes url fetch l = [].
Proof.
  induction l as [|s l IH]; intros H; [reflexivity|].
  unfold successes in *. simpl. rewrite (H s (or_introl eq_refl)). simpl.
  apply IH. intros s' Hs'. apply H. right. exact Hs'.
Qed.

(** Runs every [bind] and [ret] of the goal, naming no result. *)
Ltac run_clock :=
  unfold bind, ret;
  repeat match goal with
         | |- context [let (_, _) := ?e in _] =>
             lazymatch e with
             | context [let (_, _) := _ in _] => fail
             | _ => destruct e
             end
         end.

Lemma FloridaTrees_gatherAll_cons rt fetch s ss t :
  FloridaTrees.gatherAll rt fetch (s :: ss) t =
  match fetch (FloridaTrees.url s) with
  | Some xml =>
      let (items, t1) := FloridaTrees.parseRSS rt xml s t in
      let (rest, t2) := FloridaTrees.gatherAll rt fetch ss t1 in
      (items ++ rest, t2)
  | None => FloridaTrees.gatherAll rt fetch ss t
  end.
Proof.
  unfold FloridaTrees.gatherAll. cbn [mapM].
  unfold FloridaTrees.fetchAndParse at 1.
  destruct (fetch (FloridaTrees.url s)); run_clock; reflexivity.
Qed.

Lemma Vercel_gatherAll_cons rt fetch s ss t :
  Vercel.gatherAll rt fetch (s :: ss) t =
  match fetch (Vercel.url s) with
  | Some xml =>
      let (items, t1) := Vercel.parseRSS rt xml s t in
      let (rest, t2) := Vercel.gatherAll rt fetch ss t1 in
      (items ++ rest, t2)
  | None => Vercel.gatherAll rt fetch ss t
  end.
Proof.
  unfold Vercel.gatherAll. cbn [mapM].
  unfold Vercel.fetchSource at 1.
  destruct (fetch (Vercel.url s)); run_clock; reflexivity.
Qed.

Lemma Lambda_gatherAll_cons rt get s ss t :
  Lambda.gatherAll rt get (s :: ss) t =
  match get (Lambda.url s) with
  | Some xml =>
      let (items, t1) := Lambda.parseItems rt xml (Lambda.label s) t in
      let (rest, t2) := Lambda.gatherAll rt get ss t1 in
      (items ++ rest, t2)
  | None => Lambda.gatherAll rt get ss t
  end.
Proof.
  unfold Lambda.gatherAll. cbn [mapM].
  unfold Lambda.fetchAndParse at 1.
  destruct (get (Lambda.url s)); run_clock; reflexivity.
Qed.

Lemma parseAndConcat_cons (S A : Type) (parse : jstring -> S -> Clock (list A))
      s xml docs t :
  parseAndConcat parse ((s, xml) :: docs) t =
  let (items, t1) := parse xml s t in
  let (rest, t2) := parseAndConcat parse docs t1 in
  (items ++ rest, t2).
Proof. reflexivity. Qed.

Lemma FloridaTrees_gatherAll_successes rt fetch sources t :
  FloridaTrees.gatherAll rt fetch sources t =
  parseAndConcat (FloridaTrees.parseRSS rt)
                 (successes FloridaTrees.url fetch sources) t.
Proof.
  revert t. induction sources as [|s ss IH]; intros t; [reflexivity|].
  rewrite FloridaTrees_gatherAll_cons. unfold successes. cbn [flat_map].
  fold (successes FloridaTrees.url fetch ss).
  destruct (fetch (FloridaTrees.url s)) as [xml|]; cbn [app].
  - rewrite parseAndConcat_cons.
    destruct (FloridaTrees.parseRSS rt xml s t) as [items t1].
    rewrite IH. reflexivity.
  - apply IH.
Qed.

Lemma Vercel_gatherAll_successes rt fetch sources t :
  Vercel.gatherAll rt fetch sources t =
  parseAndConcat (Vercel.parseRSS rt) (successes Vercel.url fetch sources) t.
Proof.
  revert t. induction sources as [|s ss IH]; intros t; [reflexivity|].
  rewrite Vercel_gatherAll_cons. unfold successes. cbn [flat_map].
  fold (successes Vercel.url fetch ss).
  destruct (fetch (Vercel.url s)) as [xml|]; cbn [app].
  - rewrite parseAndConcat_cons.
    destruct (Vercel.parseRSS rt xml s t) as [items t1].
    rewrite IH. reflexivity.
  - apply IH.
Qed.

Lemma Lambda_gatherAll_successes rt get sources t :
  Lambda.gatherAll rt get sources t =
  parseAndConcat (fun xml s => Lambda.parseItems rt xml (Lambda.label s))
                 (successes Lambda.url get sources) t.
Proof.
  revert t. induction sources as [|s ss IH]; intros t; [reflexivity|].
  rewrite Lambda_gatherAll_cons. unfold successes. cbn [flat_map].
  fold (successes Lambda.url get ss).
  destruct (get (Lambda.url s)) as [xml|]; cbn [app].
  - rewrite parseAndConcat_cons.
    destruct (Lambda.parseItems rt xml (Lambda.label s) t) as [items t1].
    rewrite IH. reflexivity.
  - apply IH.
Qed.

(** C8.  Whatever the outcome of each fetch, what the orchestrator leaves
    for the merge is the concatenation of the parsed article lists of
    exactly the sources whose fetch succeeded, in the order of the source
    configuration, each list in the order of its document.  A source whose
    fetch succeeds gives, alone, exactly the list that the parser makes of
    its document.  A source whose fetch fails adds nothing, and taking it
    out of the configuration changes nothing for the other sources. *)
Theorem C8_partial_failure_isolation :
  (forall rt fetch sources t,
      FloridaTrees.gatherAll rt fetch sources t =
      parseAndConcat (FloridaTrees.parseRSS rt)
                     (successes FloridaTrees.url fetch sources) t)
  /\
  (forall rt fetch s xml t,
      fetch (FloridaTrees.url s) = Some xml ->
      FloridaTrees.gatherAll rt fetch [s] t = FloridaTrees.parseRSS rt xml s t)
  /\
  (forall rt fetch before s after t,
      fetch (FloridaTrees.url s) = None ->
      FloridaTrees.gatherAll rt fetch (before ++ s :: after) t =
      FloridaTrees.gatherAll rt fetch (before ++ after) t)
  /\
  (forall rt fetch sources t,
      Vercel.gatherAll rt fetch sources t =
      parseAndConcat (Vercel.parseRSS rt)
                     (successes Vercel.url fetch sources) t)
  /\
  (forall rt fetch s xml t,
      fetch (Vercel.url s) = Some xml ->
      Vercel.gatherAll rt fetch [s] t = Vercel.parseRSS rt xml s t)
  /\
  (forall rt fetch before s after t,
      fetch (Vercel.url s) = None ->
      Vercel.gatherAll rt fetch (before ++ s :: after) t =
      Vercel.gatherAll rt fetch (before ++ after) t).
Proof.
  repeat apply conj.
  - apply FloridaTrees_gatherAll_successes.
  - intros rt fetch s xml t H.
    rewrite FloridaTrees_gatherAll_successes. unfold successes.
    cbn [flat_map]. rewrite H. cbn [app parseAndConcat].
    destruct (FloridaTrees.parseRSS rt xml s t) as [items t1].
    rewrite app_nil_r. reflexivity.
  - intros rt fetch before s after t H.
    rewrite !FloridaTrees_gatherAll_successes, !successes_app.
    unfold successes at 2. cbn [flat_map]. rewrite H. reflexivity.
  - apply Vercel_gatherAll_successes.
  - intros rt fetch s xml t H.
    rewrite Vercel_gatherAll_successes. unfold successes.
    cbn [flat_map]. rewrite H. cbn [app parseAndConcat].
    destruct (Vercel.parseRSS rt xml s t) as [items t1].
    rewrite app_nil_r. reflexivity.
  - intros rt fetch before s after t H.
    rewrite !Vercel_gatherAll_successes, !successes_app.
    unfold successes at 2. cbn [flat_map]. rewrite H. reflexivity.
Qed.

(** ** Total outage *)

Lemma FloridaTrees_gatherAll_outage rt fetch sources t :
  (forall s, In s sources -> fetch (FloridaTrees.url s) = None) ->
  FloridaTrees.gatherAll rt fetch sources t = ([], t).
Proof.
  intros H. rewrite FloridaTrees_gatherAll_successes, successes_none by exact H.
  reflexivity.
Qed.

Lemma Vercel_gatherAll_outage rt fetch sources t :
  (forall s, In s sources -> fetch (Vercel.url s) = None) ->
  Vercel.gatherAll rt fetch sources t = ([], t).
Proof.
  intros H. rewrite Vercel_gatherAll_successes, successes_none by exact H.
  reflexivity.
Qed.

Lemma Lambda_gatherAll_outage rt get sources t :
  (forall s, In s sources -> get (Lambda.url s) = None) ->
  Lambda.gatherAll rt get sources t = ([], t).
Proof.
  intros H. rewrite Lambda_gatherAll_successes, successes_none by exact H.
  reflexivity.
Qed.

(** C10.  When the fetch of every configured source fails, a request that
    reaches the rebuild (any method but [OPTIONS]; in the revision with
    the relevance gate, no fresh payload in the cache) is answered with
    status 200 and the body [{ ok: true, count: 0, fetchedAt, articles: [] }],
    where [fetchedAt] is the reading of the clock; no 500 is produced. *)
Theorem C10_total_outage_status_200 :
  (forall rt fetch method cache t,
      jeqb method (js "OPTIONS") = false ->
      (forall s, In s FloridaTrees.SOURCES -> fetch (FloridaTrees.url s) = None) ->
      fst (FloridaTrees.isFresh rt cache t) = false ->
      exists now,
        fst (fst (FloridaTrees.handler rt fetch method cache t)) =
        emptyMissResponse
          {| FloridaTrees.ok := true; FloridaTrees.count := 0;
             FloridaTrees.fetchedAt := now; FloridaTrees.articles := [] |})
  /\
  (forall rt fetch method t,
      jeqb method (js "OPTIONS") = false ->
      (forall s, In s Vercel.SOURCES -> fetch (Vercel.url s) = None) ->
      Vercel.handler rt fetch method t =
      ({| status := 200;
          headers := Vercel.baseHeaders ++
                     [("Cache-Control", "s-maxage=600, stale-while-revalidate=60")%string];
          body := Json {| Vercel.ok := true; Vercel.count := 0;
                          Vercel.fetchedAt := clockAt rt t;
                          Vercel.articles := [] |} |}, S t)).
Proof.
  split.
  - intros rt fetch method cache t Hm Hout Hfresh.
    unfold FloridaTrees.handler. rewrite Hm, bind_run, Hfresh.
    set (t1 := snd (FloridaTrees.isFresh rt cache t)).
    exists (clockAt rt t1).
    unfold FloridaTrees.rebuild.
    rewrite bind_run, (FloridaTrees_gatherAll_outage rt fetch _ t1 Hout).
    reflexivity.
  - intros rt fetch method t Hm Hout.
    unfold Vercel.handler. rewrite Hm, bind_run.
    rewrite (Vercel_gatherAll_outage rt fetch _ t Hout). reflexivity.
Qed.

(** ** Storing an empty result *)

(** C1 (the revision with the relevance gate).  With one article in the
    cache, stored at time 1000, a [GET] at time 400000 during which every
    fetch fails leaves a cache whose payload has no article: the empty
    result has replaced the stored one. *)
Theorem C1_empty_result_replaces_cache :
  snd (fst (FloridaTrees.handler (sampleRuntime 400000) outage (js "GET")
                                 warmCache 0))
  = {| FloridaTrees.data :=
         Some {| FloridaTrees.ok := true; FloridaTrees.count := 0;
                 FloridaTrees.fetchedAt := 400001;
                 FloridaTrees.articles := [] |};
       FloridaTrees.ts := 400002 |}.
Proof. vm_compute. reflexivity. Qed.

(** The guarded store of the CommonJS revision: a payload without
    articles leaves the cache as it is and does not read the clock. *)
Lemma Lambda_store_empty rt payload cache t :
  Lambda.articles payload = [] ->
  Lambda.store rt payload cache t = (cache, t).
Proof. intros H. unfold Lambda.store. rewrite H. reflexivity. Qed.

(** In the CommonJS revision no request replaces the cache by a payload
    without articles: after any request the cache is the one before it,
    or it holds a payload with at least one article. *)
Lemma Lambda_handler_keeps_cache rt get method cache t :
  let cache' := snd (fst (Lambda.handler rt get method cache t)) in
  cache' = cache \/
  exists p, Lambda.data cache' = Some p /\ Lambda.articles p <> [].
Proof.
  unfold Lambda.handler. destruct (jeqb method (js "OPTIONS")); [left; reflexivity|].
  rewrite bind_run.
  assert (R : forall t1,
             let c := snd (fst (Lambda.rebuild rt get cache t1)) in
             c = cache \/ exists p, Lambda.data c = Some p /\ Lambda.articles p <> []).
  { intros t1. unfold Lambda.rebuild. rewrite !bind_run. cbn [fst snd ret dateNow].
    unfold Lambda.store. cbn [Lambda.articles].
    destruct (Lambda.finalize _) as [|a l] eqn:E.
    - left. reflexivity.
    - right. cbn. eexists. split; [reflexivity|]. cbn. discriminate. }
  destruct (fst (Lambda.isFresh rt cache t)), (Lambda.data cache); try apply R.
  left. reflexivity.
Qed.

(** ** Ranking *)

Section SortFacts.
Variable A : Type.
Variable key : A -> Z.

Lemma insertSorted_perm x l :
  Permutation (insertSorted (descendingBy key) x l) (x :: l).
Proof.
  induction l as [|y l IH]; simpl; [apply Permutation_refl|].
  destruct (0 <? descendingBy key x y)%Z; [|apply Permutation_refl].
  eapply perm_trans; [apply perm_skip, IH | apply perm_swap].
Qed.

Lemma sortBy_perm l : Permutation (sortBy (descendingBy key) l) l.
Proof.
  induction l as [|x l IH]; simpl; [constructor|].
  eapply perm_trans; [apply insertSorted_perm | apply perm_skip, IH].
Qed.

Lemma insertSorted_descending x l :
  Descending key l -> Descending key (insertSorted (descendingBy key) x l).
Proof.
  unfold Descending. induction l as [|y l IH]; intros H; simpl.
  - constructor; constructor.
  - inversion H as [|? ? Hl Hy]; subst.
    destruct (0 <? descendingBy key x y)%Z eqn:E.
    + constructor; [apply IH, Hl|].
      apply (Permutation_Forall (Permutation_sym (insertSorted_perm x l))).
      constructor; [|exact Hy].
      apply Z.ltb_lt in E. unfold descendingBy in E. lia.
    + constructor; [exact H|].
      apply Z.ltb_ge in E. unfold descendingBy in E.
      constructor; [lia|].
      eapply Forall_impl; [|exact Hy]. intros a Ha. simpl in Ha. lia.
Qed.

Lemma sortBy_descending l : Descending key (sortBy (descendingBy key) l).
Proof.
  induction l as [|x l IH]; simpl; [constructor|].
  apply insertSorted_descending, IH.
Qed.

Lemma insertSorted_withKey k x l :
  withKey key k (insertSorted (descendingBy key) x l)
  = withKey key k (x :: l).
Proof.
  unfold withKey. induction l as [|y l IH]; [reflexivity|].
  cbn [insertSorted].
  destruct (0 <? descendingBy key x y)%Z eqn:E; [|reflexivity].
  apply Z.ltb_lt in E. unfold descendingBy in E.
  cbn [filter] in *. rewrite IH.
  destruct (key x =? k)%Z eqn:Ex, (key y =? k)%Z eqn:Ey; try reflexivity.
  apply Z.eqb_eq in Ex, Ey. lia.
Qed.

Lemma sortBy_withKey k l :
  withKey key k (sortBy (descendingBy key) l) = withKey key k l.
Proof.
  induction l as [|x l IH]; [reflexivity|].
  cbn [sortBy fold_right]. fold (sortBy (descendingBy key) l).
  rewrite insertSorted_withKey. unfold withKey in *. cbn [filter].
  rewrite IH. reflexivity.
Qed.

Lemma firstn_descending n l : Descending key l -> Descending key (firstn n l).
Proof.
  unfold Descending. revert n. induction l as [|x l IH]; intros [|n] H;
    simpl; try constructor.
  - inversion H; subst. apply IH. assumption.
  - inversion H as [|? ? _ Hx]; subst.
    rewrite Forall_forall in *. intros a Ha. apply Hx.
    rewrite <- (firstn_skipn n l). apply in_or_app. left. exact Ha.
Qed.
End SortFacts.

(** C7, as stated, fails on the ES-module revision: its handler sorts the
    deduplicated articles and returns all of them; 121 articles with
    distinct titles give a payload of 121 articles. *)
Lemma C7_vercel_payload_exceeds_maximum :
  length (Vercel.finalize (sampleRuntime 0) manyArticles) = 121 /\
  ~ length (Vercel.finalize (sampleRuntime 0) manyArticles) <= 120.
Proof.
  assert (H : length (Vercel.finalize (sampleRuntime 0) manyArticles) = 121)
    by (vm_compute; reflexivity).
  split; [exact H | rewrite H; lia].
Qed.

(** C7, amended.  In every revision the articles of the payload are the
    deduplicated articles sorted by timestamp, most recent first, articles
    with equal timestamps staying in their input order.  The revision with
    the relevance gate keeps the first 120 of them and the CommonJS
    revision the first 100; the ES-module revision returns them all. *)
Theorem C7_ranking_and_truncation :
  (forall raw,
      let kept := FloridaTrees.dedup raw in
      let sorted := sortBy FloridaTrees.byRecency kept in
      Permutation sorted kept /\
      Descending FloridaTrees._pubTimestamp sorted /\
      (forall k, withKey FloridaTrees._pubTimestamp k sorted
                 = withKey FloridaTrees._pubTimestamp k kept) /\
      FloridaTrees.finalize raw = firstn 120 sorted /\
      Descending FloridaTrees._pubTimestamp (FloridaTrees.finalize raw) /\
      length (FloridaTrees.finalize raw) = Nat.min 120 (length kept))
  /\
  (forall raw,
      let kept := Lambda.dedupFrom [] raw in
      let sorted := sortBy Lambda.byRecency kept in
      Permutation sorted kept /\
      Descending Lambda._pubTimestamp sorted /\
      (forall k, withKey Lambda._pubTimestamp k sorted
                 = withKey Lambda._pubTimestamp k kept) /\
      Lambda.finalize raw = firstn 100 sorted /\
      Descending Lambda._pubTimestamp (Lambda.finalize raw) /\
      length (Lambda.finalize raw) = Nat.min 100 (length kept))
  /\
  (forall rt raw,
      let kept := Vercel.dedupFrom rt [] raw in
      Vercel.finalize rt raw = sortBy Vercel.byRecency kept /\
      Permutation (Vercel.finalize rt raw) kept /\
      Descending Vercel.pubDate (Vercel.finalize rt raw) /\
      (forall k, withKey Vercel.pubDate k (Vercel.finalize rt raw)
                 = withKey Vercel.pubDate k kept) /\
      length (Vercel.finalize rt raw) = length kept).
Proof.
  repeat apply conj.
  - intros raw kept sorted.
    assert (P : Permutation sorted kept)
      by exact (sortBy_perm FloridaTrees._pubTimestamp kept).
    assert (D : Descending FloridaTrees._pubTimestamp sorted)
      by exact (sortBy_descending FloridaTrees._pubTimestamp kept).
    repeat apply conj; try assumption.
    + intros k. exact (sortBy_withKey FloridaTrees._pubTimestamp k kept).
    + reflexivity.
    + apply firstn_descending, D.
    + unfold FloridaTrees.finalize. fold kept. fold sorted.
      rewrite length_firstn, (Permutation_length P). reflexivity.
  - intros raw kept sorted.
    assert (P : Permutation sorted kept)
      by exact (sortBy_perm Lambda._pubTimestamp kept).
    assert (D : Descending Lambda._pubTimestamp sorted)
      by exact (sortBy_descending Lambda._pubTimestamp kept).
    repeat apply conj; try assumption.
    + intros k. exact (sortBy_withKey Lambda._pubTimestamp k kept).
    + reflexivity.
    + apply firstn_descending, D.
    + unfold Lambda.finalize. fold kept. fold sorted.
      rewrite length_firstn, (Permutation_length P). reflexivity.
  - intros rt raw kept.
    assert (P : Permutation (Vercel.finalize rt raw) kept)
      by exact (sortBy_perm Vercel.pubDate kept).
    repeat apply conj; try assumption.
    + reflexivity.
    + exact (sortBy_descending Vercel.pubDate kept).
    + intros k. exact (sortBy_withKey Vercel.pubDate k kept).
    + exact (Permutation_length P).
Qed.

(** ** Deduplication *)

Lemma jeqb_eq (a b : jstring) : jeqb a b = true <-> a = b.
Proof.
  revert b; induction a as [|x a IH]; intros [|y b]; simpl;
    try (split; [discriminate | intros H; discriminate]); [tauto|].
  rewrite andb_true_iff, N.eqb_eq, IH. split.
  - intros [-> ->]. reflexivity.
  - intros H; injection H as -> ->. split; reflexivity.
Qed.

Lemma jeqb_refl (a : jstring) : jeqb a a = true.
Proof. apply jeqb_eq. reflexivity. Qed.




(** Removing every unit of a class. *)
Lemma replace_class_filter p s :
  replaceWith (Chr p) [] s = filter (fun c => negb (p c)) s.
Proof.
  unfold replaceWith, replaceAll.
  induction s as [|x s IH]; [reflexivity|].
  cbn [replaceFrom filter]. unfold matchAt. cbn [mtch].
  destruct (p x); cbn [negb app].
  - replace (length (x :: s) - length s) with 1 by (cbn [length]; lia).
    exact IH.
  - rewrite IH. reflexivity.
Qed.



Section FirstPerKey.
Variable A : Type.
Variable key : A -> jstring.

Lemma existsb_jeqb_cons_seen k k' seen :
  existsb (jeqb k') seen = true ->
  existsb (jeqb k) (k' :: seen) = existsb (jeqb k) seen.
Proof.
  intros H. cbn [existsb]. destruct (jeqb k k') eqn:E; [|reflexivity].
  apply jeqb_eq in E. subst. rewrite H. reflexivity.
Qed.


Lemma keepFirst_pair a b :
  keepFirst key [] [a; b] = if jeqb (key b) (key a) then [a] else [a; b].
Proof. cbn. destruct (jeqb (key b) (key a)); reflexivity. Qed.
End FirstPerKey.

Lemma FloridaTrees_dedupFrom_keepFirst seen items :
  FloridaTrees.dedupFrom seen items =
  keepFirst (fun a => FloridaTrees.dedupKey (FloridaTrees.title a)) seen items.
Proof.
  revert seen. induction items as [|a l IH]; intros seen; [reflexivity|].
  cbn [FloridaTrees.dedupFrom keepFirst]. rewrite !IH. reflexivity.
Qed.

Lemma Lambda_dedupFrom_keepFirst seen items :
  Lambda.dedupFrom seen items =
  keepFirst (fun a => Lambda.dedupKey (Lambda.title a)) seen items.
Proof.
  revert seen. induction items as [|a l IH]; intros seen; [reflexivity|].
  cbn [Lambda.dedupFrom keepFirst]. rewrite !IH. reflexivity.
Qed.

Lemma Vercel_dedupFrom_keepFirst rt seen raw :
  Vercel.dedupFrom rt seen raw =
  keepFirst (fun a => Vercel.dedupKey rt (Vercel.title a)) seen
            (filter hasTitleAndLink raw).
Proof.
  revert seen. induction raw as [|a l IH]; intros seen; [reflexivity|].
  cbn [Vercel.dedupFrom filter]. unfold hasTitleAndLink at 1.
  destruct (truthy (Vercel.title a)), (truthy (Vercel.link a));
    cbn [negb orb andb keepFirst]; rewrite ?IH; reflexivity.
Qed.

Lemma FloridaTrees_dedupKey_filter t :
  FloridaTrees.dedupKey t = filter isLowerAlnum (toLowerCase (firstn 65 t)).
Proof.
  unfold FloridaTrees.dedupKey, slice0. rewrite replace_class_filter.
  apply filter_ext. intros c. apply negb_involutive.
Qed.



Lemma lower_punctuation_no_key p :
  Forall (fun c => leavesNoKey c = true) p ->
  filter isLowerAlnum (toLowerCase p) = [].
Proof.
  induction 1 as [|c p Hc _ IH]; [reflexivity|].
  unfold toLowerCase in *. cbn [flat_map]. rewrite filter_app, IH, app_nil_r.
  unfold leavesNoKey in Hc. rewrite forallb_forall in Hc.
  induction (lowerUnit c) as [|u us IHu]; [reflexivity|].
  cbn [filter].
  pose proof (Hc u (or_introl eq_refl)) as Hu.
  apply negb_true_iff in Hu. rewrite Hu.
  apply IHu. intros v Hv. apply Hc. right. exact Hv.
Qed.





(** ** Item parser *)

Lemma truthy_nonempty (s : jstring) : truthy s = true <-> s <> [].
Proof. destruct s; simpl; split; congruence. Qed.

Lemma truthy_empty (s : jstring) : truthy s = false <-> s = [].
Proof. destruct s; simpl; split; congruence. Qed.

(** The loop gives, in the order of the blocks, the articles that the
    body emits, one run of the body for each block. *)
Lemma collectItems_emitted (A : Type) (body : jstring -> Clock (option A))
      blocks t :
  exists results,
    Forall2 (fun b r => exists t', r = fst (body b t')) blocks results /\
    fst (collectItems body blocks t) = emitted results.
Proof.
  revert t. induction blocks as [|b bs IH]; intros t.
  - exists []. split; [constructor | reflexivity].
  - cbn [collectItems]. rewrite !bind_run. cbn [ret fst].
    destruct (IH (snd (body b t))) as [rs [F E]].
    exists (fst (body b t) :: rs). split.
    + constructor; [exists t; reflexivity | exact F].
    + cbn [emitted]. rewrite E. destruct (fst (body b t)); reflexivity.
Qed.

Lemma FloridaTrees_parseBlocks_collect rt source blocks :
  FloridaTrees.parseBlocks rt source blocks
  = collectItems (FloridaTrees.parseItem rt source) blocks.
Proof.
  induction blocks as [|b bs IH]; [reflexivity|].
  cbn [FloridaTrees.parseBlocks collectItems]. rewrite IH. reflexivity.
Qed.

Lemma Vercel_parseBlocks_collect rt src blocks :
  Vercel.parseBlocks rt src blocks
  = collectItems (Vercel.parseItem rt src) blocks.
Proof.
  induction blocks as [|b bs IH]; [reflexivity|].
  cbn [Vercel.parseBlocks collectItems]. rewrite IH. reflexivity.
Qed.

Lemma Lambda_parseBlocks_collect rt label blocks :
  Lambda.parseBlocks rt label blocks
  = collectItems (Lambda.parseItem rt label) blocks.
Proof.
  induction blocks as [|b bs IH]; [reflexivity|].
  cbn [Lambda.parseBlocks collectItems]. rewrite IH. reflexivity.
Qed.

(** The loop body of the revision with the relevance gate, case by case. *)
Lemma FloridaTrees_parseItem_cases rt source b t :
  FloridaTrees.parseItem rt source b t =
  if truthy (titleOfA b) && truthy (linkOfA b)
     && startsWith (linkOfA b) (js "http")
  then
    let (ts, t1) := timeOf rt (pubDateOfA b) t in
    if FloridaTrees.isRelevant (titleOfA b) (descOfA b) then
      let (stamp, t2) := match ts with
                         | None => dateNow rt t1
                         | Some v => (v, t1)
                         end in
      (Some {| FloridaTrees.title := titleOfA b;
               FloridaTrees.link := linkOfA b;
               FloridaTrees.description := descOfA b;
               FloridaTrees.thumbnail :=
                 (let thumb := FloridaTrees.getThumbnail
                                 b (FloridaTrees.getRawTag b (js "description")) in
                  if startsWith thumb (js "http") then thumb else []);
               FloridaTrees.pubDate := pubDateOfA b;
               FloridaTrees._pubTimestamp := stamp;
               FloridaTrees._source := FloridaTrees.name source;
               FloridaTrees._sourceLabel := FloridaTrees.label source |}, t2)
    else (None, t1)
  else (None, t).
Proof.
  unfold FloridaTrees.parseItem.
  fold (titleOfA b). fold (linkOfA b). fold (pubDateOfA b). fold (descOfA b).
  destruct (truthy (titleOfA b)), (truthy (linkOfA b)),
    (startsWith (linkOfA b) (js "http")); cbn [negb orb andb]; try reflexivity.
  fold (timeOf rt (pubDateOfA b)). rewrite bind_run.
  destruct (timeOf rt (pubDateOfA b) t) as [ts t1]. cbn [fst snd].
  destruct (FloridaTrees.isRelevant (titleOfA b) (descOfA b)); cbn [negb];
    [|reflexivity].
  rewrite bind_run. destruct ts as [v|]; reflexivity.
Qed.

Lemma Vercel_parseItem_cases rt src b t :
  Vercel.parseItem rt src b t =
  if truthy (titleOfB b) && truthy (linkOfB b)
  then
    let (d, t1) := timeOf rt (pubDateOfB b) t in
    match d with
    | None => (None, t1)
    | Some v =>
        let rawDesc := Vercel.get b (js "description")
                         |> replaceWith anyTag [] |> trim |> slice0 300 in
        (Some {| Vercel.title := Vercel.decode (titleOfB b);
                 Vercel.link := linkOfB b;
                 Vercel.description := Vercel.decode rawDesc;
                 Vercel.thumbnail :=
                   orElse (Vercel.gattr b (js "media:thumbnail") (js "url"))
                          (orElse (Vercel.gattr b (js "media:content") (js "url"))
                                  (orElse (Vercel.gattr b (js "enclosure") (js "url")) []));
                 Vercel.pubDate := v;
                 Vercel.source := Vercel.name src;
                 Vercel.sourceLabel := Vercel.label src;
                 Vercel.sourceColor := Vercel.color src;
                 Vercel.category := Vercel.detectCat (titleOfB b) rawDesc |}, t1)
    end
  else (None, t).
Proof.
  unfold Vercel.parseItem.
  fold (titleOfB b). fold (linkOfB b). fold (pubDateOfB b).
  destruct (truthy (titleOfB b)), (truthy (linkOfB b));
    cbn [negb orb andb]; try reflexivity.
  fold (timeOf rt (pubDateOfB b)). rewrite bind_run.
  destruct (timeOf rt (pubDateOfB b) t) as [[v|] t1]; reflexivity.
Qed.

Lemma Lambda_parseItem_cases rt label b t :
  Lambda.parseItem rt label b t =
  if truthy (titleOfC b) && truthy (linkOfC b)
  then
    let (ts, t1) := timeOf rt (pubDateOfC b) t in
    let (stamp, t2) := match ts with
                       | None => dateNow rt t1
                       | Some v => (v, t1)
                       end in
    (Some {| Lambda.title := titleOfC b;
             Lambda.link := linkOfC b;
             Lambda.description := descOfC b;
             Lambda.thumbnail :=
               if startsWith (thumbOfC b) (js "http") then thumbOfC b else [];
             Lambda.pubDate := pubDateOfC b;
             Lambda._pubTimestamp := stamp;
             Lambda._sourceLabel := label |}, t2)
  else (None, t).
Proof.
  unfold Lambda.parseItem.
  fold (titleOfC b). fold (linkOfC b). fold (pubDateOfC b).
  destruct (truthy (titleOfC b)), (truthy (linkOfC b));
    cbn [negb orb andb]; try reflexivity.
  fold (timeOf rt (pubDateOfC b)). rewrite !bind_run.
  destruct (timeOf rt (pubDateOfC b) t) as [[v|] t1]; reflexivity.
Qed.

(** C2, as stated, fails in both directions.  In the revision with the
    relevance gate a block with a title and an [https] link is dropped
    when the filter rejects it; in the ES-module revision a block whose
    link starts with no scheme is emitted. *)
Lemma C2_validation_is_not_the_only_gate :
  (titleOfA californiaBlock = js "California Marijuana Bill" /\
   linkOfA californiaBlock = js "https://example.com/ca" /\
   startsWith (linkOfA californiaBlock) (js "http") = true /\
   FloridaTrees.parseRSS (sampleRuntime 0)
     (js "<item>" ++ californiaBlock ++ js "</item>") sampleSourceA 0
   = ([], 1))
  /\
  (linkOfB relativeLinkBlock = js "/news/florida-bill" /\
   startsWith (linkOfB relativeLinkBlock) (js "http") = false /\
   length (fst (Vercel.parseRSS (sampleRuntime 0)
                  (js "<item>" ++ relativeLinkBlock ++ js "</item>")
                  sampleSourceB 0)) = 1).
Proof. vm_compute. repeat split. Qed.

(** C2, amended.  Every block of the document is run through the loop
    body once, in order, and the result of the parser is the list of the
    articles that the body emits.  In the revision with the relevance gate
    the body emits an article exactly when the title is non-empty, the
    link is non-empty and starts with [http], and the relevance filter
    admits the title and the description; the article carries that title
    and that link.  The CommonJS revision emits exactly when title and
    link are non-empty, the ES-module revision exactly when title and link
    are non-empty and the date is valid. *)
Theorem C2_validation_gate :
  (forall rt xml source t,
      exists results,
        Forall2 (fun b r => exists t', r = fst (FloridaTrees.parseItem rt source b t'))
                (itemBlocks xml) results /\
        fst (FloridaTrees.parseRSS rt xml source t) = emitted results)
  /\
  (forall rt xml label t,
      exists results,
        Forall2 (fun b r => exists t', r = fst (Lambda.parseItem rt label b t'))
                (itemBlocks xml) results /\
        fst (Lambda.parseItems rt xml label t) = emitted results)
  /\
  (forall rt xml src t,
      exists results,
        Forall2 (fun b r => exists t', r = fst (Vercel.parseItem rt src b t'))
                (itemBlocks xml) results /\
        fst (Vercel.parseRSS rt xml src t) = emitted results)
  /\
  (forall rt source b t,
      (exists a, fst (FloridaTrees.parseItem rt source b t) = Some a) <->
      (titleOfA b <> [] /\ linkOfA b <> [] /\
       startsWith (linkOfA b) (js "http") = true /\
       FloridaTrees.isRelevant (titleOfA b) (descOfA b) = true))
  /\
  (forall rt source b t a,
      fst (FloridaTrees.parseItem rt source b t) = Some a ->
      FloridaTrees.title a = titleOfA b /\ FloridaTrees.link a = linkOfA b /\
      FloridaTrees.description a = descOfA b)
  /\
  (forall rt label b t,
      (exists a, fst (Lambda.parseItem rt label b t) = Some a) <->
      (titleOfC b <> [] /\ linkOfC b <> []))
  /\
  (forall rt src b t,
      (exists a, fst (Vercel.parseItem rt src b t) = Some a) <->
      (titleOfB b <> [] /\ linkOfB b <> [] /\
       (pubDateOfB b = [] \/ dateParse rt (pubDateOfB b) <> None))).
Proof.
  repeat apply conj.
  - intros rt xml source t. unfold FloridaTrees.parseRSS.
    rewrite FloridaTrees_parseBlocks_collect. apply collectItems_emitted.
  - intros rt xml label t. unfold Lambda.parseItems.
    rewrite Lambda_parseBlocks_collect. apply collectItems_emitted.
  - intros rt xml src t. unfold Vercel.parseRSS.
    rewrite Vercel_parseBlocks_collect. apply collectItems_emitted.
  - intros rt source b t. rewrite FloridaTrees_parseItem_cases.
    rewrite <- !truthy_nonempty.
    destruct (truthy (titleOfA b)), (truthy (linkOfA b)),
      (startsWith (linkOfA b) (js "http")); cbn [andb];
      try (split; [intros [a H]; discriminate | intros (? & ? & ? & ?); discriminate]).
    destruct (timeOf rt (pubDateOfA b) t) as [ts t1].
    destruct (FloridaTrees.isRelevant (titleOfA b) (descOfA b)).
    + destruct (match ts with None => _ | Some v => _ end) as [stamp t2].
      split; [intros _; repeat split | intros _; eexists; reflexivity].
    + split; [intros [a H]; discriminate | intros (? & ? & ? & ?); discriminate].
  - intros rt source b t a. rewrite FloridaTrees_parseItem_cases.
    destruct (_ && _ && _); [|discriminate].
    destruct (timeOf rt (pubDateOfA b) t) as [ts t1].
    destruct (FloridaTrees.isRelevant (titleOfA b) (descOfA b)); [|discriminate].
    destruct (match ts with None => _ | Some v => _ end) as [stamp t2].
    cbn [fst]. intros H. injection H as <-. repeat split.
  - intros rt label b t. rewrite Lambda_parseItem_cases.
    rewrite <- !truthy_nonempty.
    destruct (truthy (titleOfC b)), (truthy (linkOfC b)); cbn [andb];
      try (split; [intros [a H]; discriminate | intros (? & ?); discriminate]).
    destruct (timeOf rt (pubDateOfC b) t) as [ts t1].
    destruct (match ts with None => _ | Some v => _ end) as [stamp t2].
    split; [intros _; repeat split | intros _; eexists; reflexivity].
  - intros rt src b t. rewrite Vercel_parseItem_cases.
    rewrite <- !truthy_nonempty.
    destruct (truthy (titleOfB b)), (truthy (linkOfB b)); cbn [andb];
      try (split; [intros [a H]; discriminate | intros (? & ? & ?); discriminate]).
    unfold timeOf. destruct (truthy (pubDateOfB b)) eqn:E.
    + cbn [ret]. destruct (dateParse rt (pubDateOfB b)) as [v|].
      * split; [intros _; repeat split; right; discriminate
               | intros _; eexists; reflexivity].
      * split; [intros [a H]; discriminate|].
        intros (_ & _ & [H | H]); [|congruence].
        apply truthy_empty in H. congruence.
    + rewrite bind_run. cbn [dateNow fst snd ret].
      split; [intros _; repeat split; left; apply truthy_empty, E
             | intros _; eexists; reflexivity].
Qed.

(** C3, as stated, fails on the ES-module revision: a block with a title
    and a link whose date does not parse is dropped by the guard
    [if (isNaN(d)) continue]. *)
Lemma C3_vercel_drops_unparsable_date :
  titleOfB undatedBlock = js "Florida Hemp Bill Advances" /\
  linkOfB undatedBlock = js "https://example.com/fl" /\
  pubDateOfB undatedBlock = js "not a date" /\
  dateParse (sampleRuntime 0) (pubDateOfB undatedBlock) = None /\
  Vercel.parseRSS (sampleRuntime 0)
    (js "<item>" ++ undatedBlock ++ js "</item>") sampleSourceB 0 = ([], 0).
Proof. vm_compute. repeat split. Qed.

(** C3, amended.  In the revision with the relevance gate and in the
    CommonJS revision a block whose date does not parse is still emitted,
    provided the other gates of the revision pass, and its timestamp is
    the reading of the clock at that moment.  In the ES-module revision
    such a block is dropped.  The loop body is a total function in every
    revision: a date that does not parse raises nothing. *)
Theorem C3_unparsable_date :
  (forall rt source b t,
      pubDateOfA b <> [] ->
      dateParse rt (pubDateOfA b) = None ->
      titleOfA b <> [] -> linkOfA b <> [] ->
      startsWith (linkOfA b) (js "http") = true ->
      FloridaTrees.isRelevant (titleOfA b) (descOfA b) = true ->
      exists a,
        FloridaTrees.parseItem rt source b t = (Some a, S t) /\
        FloridaTrees._pubTimestamp a = clockAt rt t /\
        FloridaTrees.title a = titleOfA b /\
        FloridaTrees.link a = linkOfA b)
  /\
  (forall rt label b t,
      pubDateOfC b <> [] ->
      dateParse rt (pubDateOfC b) = None ->
      titleOfC b <> [] -> linkOfC b <> [] ->
      exists a,
        Lambda.parseItem rt label b t = (Some a, S t) /\
        Lambda._pubTimestamp a = clockAt rt t /\
        Lambda.title a = titleOfC b /\
        Lambda.link a = linkOfC b)
  /\
  (forall rt src b t,
      pubDateOfB b <> [] ->
      dateParse rt (pubDateOfB b) = None ->
      Vercel.parseItem rt src b t = (None, t)).
Proof.
  repeat apply conj.
  - intros rt source b t Hp Hd Ht Hl Hs Hr.
    rewrite FloridaTrees_parseItem_cases.
    apply truthy_nonempty in Hp, Ht, Hl.
    rewrite Ht, Hl, Hs, Hr. cbn [andb]. unfold timeOf. rewrite Hp, Hd.
    cbn [ret dateNow]. eexists. repeat split.
  - intros rt label b t Hp Hd Ht Hl.
    rewrite Lambda_parseItem_cases.
    apply truthy_nonempty in Hp, Ht, Hl.
    rewrite Ht, Hl. cbn [andb]. unfold timeOf. rewrite Hp, Hd.
    cbn [ret dateNow]. eexists. repeat split.
  - intros rt src b t Hp Hd. rewrite Vercel_parseItem_cases.
    apply truthy_nonempty in Hp. unfold timeOf. rewrite Hp, Hd. cbn [ret].
    destruct (_ && _); reflexivity.
Qed.

(** ** Entity decoders *)

Lemma mtch_lit (R : Type) p s c (k : jstring -> caps -> option R) :
  mtch (lit p) s c k
  = if startsWith s p then k (skipn (length p) s) c else None.
Proof.
  revert s. induction p as [|y p IH]; intros s; [reflexivity|].
  cbn [lit mtch startsWith]. destruct s as [|x s]; [reflexivity|].
  unfold only. rewrite (N.eqb_sym y x). destruct (N.eqb x y); [|reflexivity].
  cbn [andb length skipn]. apply IH.
Qed.

Lemma matchAt_lit p s :
  matchAt (lit p) s
  = if startsWith s p then Some ([], skipn (length p) s) else None.
Proof. unfold matchAt. apply mtch_lit. Qed.

(** A greedy run that is followed by a unit outside the class, where the
    continuation succeeds. *)
Lemma repGreedy_run (R : Type) p (k : jstring -> option R) ds x rest min r :
  Forall (fun d => p d = true) ds ->
  p x = false ->
  min <= length ds ->
  k (x :: rest) = Some r ->
  repGreedy p k min (ds ++ x :: rest) = Some r.
Proof.
  intros Hds Hx. revert min. induction Hds as [|d ds Hd _ IH]; intros min Hm Hk.
  - cbn [app repGreedy]. rewrite Hx. destruct min; [exact Hk | cbn in Hm; lia].
  - cbn [app repGreedy]. rewrite Hd.
    rewrite IH; [reflexivity | cbn [length] in Hm; lia | exact Hk].
Qed.

(** After a match that reaches the end of the string nothing is left to
    replace. *)
Lemma replaceFrom_skip_all r f s :
  matchAt r [] = None -> replaceFrom r f (length s) s = [].
Proof.
  intros H. induction s as [|x s IH]; cbn [length replaceFrom].
  - rewrite H. reflexivity.
  - exact IH.
Qed.

Lemma replace_unchanged r f s :
  (forall n, matchAt r (skipn n s) = None) -> replaceFrom r f 0 s = s.
Proof.
  induction s as [|x s IH]; intros H; pose proof (H 0) as H0;
    cbn [skipn] in H0; cbn [replaceFrom]; rewrite H0; [reflexivity|].
  f_equal. apply IH. intros n. exact (H (S n)).
Qed.

Lemma ampFirst_lit p : ampFirst (lit (38%N :: p)).
Proof.
  intros [|x s] H; rewrite matchAt_lit; [reflexivity|].
  cbn [startsWith]. destruct (N.eqb_spec x 38); [contradiction | reflexivity].
Qed.

Lemma ampFirst_decimalRef : ampFirst decimalRef.
Proof.
  intros [|x s] H; [reflexivity|]. unfold matchAt, decimalRef.
  cbn [seqs mtch]. rewrite mtch_lit. cbn [js map list_ascii_of_string startsWith].
  change (N_of_ascii "&") with 38%N.
  destruct (N.eqb_spec x 38); [contradiction | reflexivity].
Qed.

Lemma ampFirst_hexRef : ampFirst FloridaTrees.hexRef.
Proof.
  intros [|x s] H; [reflexivity|]. unfold matchAt, FloridaTrees.hexRef.
  cbn [seqs mtch litCI js map list_ascii_of_string].
  change (N_of_ascii "&") with 38%N. unfold onlyCI at 1.
  change (canon 38) with 38%N.
  destruct (N.eqb_spec 38 (canon x)) as [E|E]; [|reflexivity].
  exfalso. apply H. unfold canon in E.
  destruct (isLowerAscii x) eqn:L; [|congruence].
  unfold isLowerAscii in L. apply andb_true_iff in L. destruct L as [L _].
  apply N.leb_le in L. lia.
Qed.

Lemma skipn_no_amp n (s : jstring) :
  Forall (fun x => x <> 38%N) s ->
  match skipn n s with x :: _ => x <> 38%N | [] => True end.
Proof.
  intros H. revert n. induction H as [|x s Hx _ IH]; intros [|n]; cbn [skipn];
    try exact I; [exact Hx | apply IH].
Qed.

(** A reference that the pattern does not match at its ampersand, and that
    holds no other ampersand, is left as it is. *)
Lemma replace_reference_unchanged r f s :
  ampFirst r ->
  Forall (fun x => x <> 38%N) s ->
  matchAt r (38%N :: s) = None ->
  replaceFrom r f 0 (38%N :: s) = 38%N :: s.
Proof.
  intros A H M. apply replace_unchanged. intros [|n]; [exact M|].
  cbn [skipn]. apply A, skipn_no_amp, H.
Qed.

Lemma digit_not_amp ds :
  Forall (fun d => isHexDigit d = true) ds -> Forall (fun x => x <> 38%N) ds.
Proof.
  intros H. eapply Forall_impl; [|exact H]. intros d Hd ->. discriminate.
Qed.

Lemma isDigit_isHexDigit d : isDigit d = true -> isHexDigit d = true.
Proof. intros H. unfold isHexDigit. rewrite H. reflexivity. Qed.

Lemma reference_body_no_amp (pre ds : jstring) :
  Forall (fun x => x <> 38%N) pre ->
  Forall (fun d => isHexDigit d = true) ds ->
  Forall (fun x => x <> 38%N) (pre ++ ds ++ [59%N]).
Proof.
  intros Hp Hd. apply Forall_app. split; [exact Hp|].
  apply Forall_app. split; [apply digit_not_amp, Hd|].
  constructor; [discriminate | constructor].
Qed.

(** A digit string followed by [;] starts with another one followed by
    [;] only when the two are the same. *)
Lemma startsWith_digits ds pd rest :
  Forall (fun d => isHexDigit d = true) ds ->
  Forall (fun d => isHexDigit d = true) pd ->
  startsWith (ds ++ 59%N :: rest) (pd ++ [59%N]) = true -> ds = pd.
Proof.
  intros Hds Hpd. revert ds Hds.
  induction Hpd as [|p pd Hp _ IH]; intros ds Hds H.
  - destruct Hds as [|d ds Hd _]; [reflexivity|].
    cbn [app startsWith] in H. apply andb_true_iff in H. destruct H as [H _].
    apply N.eqb_eq in H. subst d. discriminate.
  - destruct Hds as [|d ds Hd Hds].
    + cbn [app startsWith] in H. apply andb_true_iff in H. destruct H as [H _].
      apply N.eqb_eq in H. subst p. discriminate.
    + cbn [app startsWith] in H. apply andb_true_iff in H. destruct H as [H1 H2].
      apply N.eqb_eq in H1. subst p. f_equal. apply IH; assumption.
Qed.

Lemma toUint16_small v : (v < 65536)%N -> fromCharCode (toNumber v) = [v].
Proof.
  intros H. unfold fromCharCode, toUint16, toNumber.
  replace (v <? 2 ^ 53)%N with true.
  - rewrite N.mod_small by exact H. reflexivity.
  - symmetry. apply N.ltb_lt. eapply N.lt_trans; [exact H | reflexivity].
Qed.

Lemma decimalReference_units ds :
  decimalReference ds = 38%N :: 35%N :: ds ++ [59%N].
Proof. reflexivity. Qed.

Lemma hexReference_units hs :
  hexReference hs = 38%N :: 35%N :: 120%N :: hs ++ [59%N].
Proof. reflexivity. Qed.

Lemma firstn_run_before_end (ds : jstring) (x : N) :
  firstn (length (ds ++ [x]) - length [x]) (ds ++ [x]) = ds.
Proof.
  rewrite length_app. cbn [length]. rewrite Nat.add_sub.
  rewrite firstn_app, Nat.sub_diag, firstn_all. cbn [firstn].
  apply app_nil_r.
Qed.

Lemma matchAt_decimalRef ds :
  ds <> [] -> Forall (fun d => isDigit d = true) ds ->
  matchAt decimalRef (decimalReference ds) = Some ([(1, ds)], []).
Proof.
  intros Hne Hds. rewrite decimalReference_units.
  unfold matchAt, decimalRef. cbn [seqs mtch]. rewrite mtch_lit.
  change (startsWith (38 :: 35 :: ds ++ [59]) (js "&#"))%N with true.
  change (skipn (length (js "&#")) (38 :: 35 :: ds ++ [59]))%N
    with (ds ++ [59%N]).
  cbn [mtch].
  erewrite repGreedy_run; [reflexivity | exact Hds | reflexivity | |].
  - destruct ds; [congruence | cbn [length]; lia].
  - rewrite mtch_lit. cbn [js map list_ascii_of_string startsWith].
    change (N_of_ascii ";") with 59%N. cbn [N.eqb Pos.eqb andb length skipn].
    rewrite firstn_run_before_end. reflexivity.
Qed.

Lemma replaceAll_decimalRef f ds :
  ds <> [] -> Forall (fun d => isDigit d = true) ds ->
  replaceAll decimalRef f (decimalReference ds) = f [(1, ds)].
Proof.
  intros Hne Hds. unfold replaceAll.
  pose proof (matchAt_decimalRef Hne Hds) as M.
  rewrite decimalReference_units in *. cbn [replaceFrom]. rewrite M.
  cbn [length Nat.sub].
  rewrite replaceFrom_skip_all by reflexivity. apply app_nil_r.
Qed.

Lemma matchAt_hexRef hs :
  hs <> [] -> Forall (fun d => isHexDigit d = true) hs ->
  matchAt FloridaTrees.hexRef (hexReference hs) = Some ([(1, hs)], []).
Proof.
  intros Hne Hhs. rewrite hexReference_units.
  unfold matchAt, FloridaTrees.hexRef.
  cbn [seqs mtch litCI js map list_ascii_of_string].
  change (onlyCI (N_of_ascii "&") 38) with true.
  change (onlyCI (N_of_ascii "#") 35) with true.
  change (onlyCI (N_of_ascii "x") 120) with true.
  cbn [mtch].
  erewrite repGreedy_run; [reflexivity | exact Hhs | reflexivity | |].
  - destruct hs; [congruence | cbn [length]; lia].
  - cbn [mtch]. change (onlyCI (N_of_ascii ";") 59) with true.
    rewrite firstn_run_before_end. reflexivity.
Qed.

Lemma replaceAll_hexRef f hs :
  hs <> [] -> Forall (fun d => isHexDigit d = true) hs ->
  replaceAll FloridaTrees.hexRef f (hexReference hs) = f [(1, hs)].
Proof.
  intros Hne Hhs. unfold replaceAll.
  pose proof (matchAt_hexRef Hne Hhs) as M.
  rewrite hexReference_units in *. cbn [replaceFrom]. rewrite M.
  cbn [length Nat.sub].
  rewrite replaceFrom_skip_all by reflexivity. apply app_nil_r.
Qed.

(** A literal pattern leaves a reference that does not start with it. *)
Lemma replace_lit_reference p t body :
  Forall (fun x => x <> 38%N) body ->
  startsWith (38%N :: body) (38%N :: p) = false ->
  replaceWith (lit (38%N :: p)) t (38%N :: body) = 38%N :: body.
Proof.
  intros Hb Hs. unfold replaceWith, replaceAll.
  apply replace_reference_unchanged; [apply ampFirst_lit | exact Hb|].
  rewrite matchAt_lit, Hs. reflexivity.
Qed.

(** A string of one unit holds no reference. *)
Lemma replace_single_unit r f c :
  ampFirst r -> matchAt r [38%N] = None -> replaceAll r f [c] = [c].
Proof.
  intros A M. unfold replaceAll. apply replace_unchanged. intros [|[|n]].
  - cbn [skipn]. destruct (N.eq_dec c 38) as [->|E]; [exact M | apply A, E].
  - apply A. exact I.
  - apply A. exact I.
Qed.

Lemma reference_unchanged r f s body :
  s = 38%N :: body ->
  ampFirst r ->
  Forall (fun x => x <> 38%N) body ->
  matchAt r s = None ->
  replaceAll r f s = s.
Proof.
  intros -> A H M. unfold replaceAll. apply replace_reference_unchanged; assumption.
Qed.

Lemma decimal_body_no_amp ds :
  Forall (fun d => isDigit d = true) ds ->
  Forall (fun x => x <> 38%N) (35%N :: ds ++ [59%N]).
Proof.
  intros H. apply (@reference_body_no_amp [35%N] ds).
  - constructor; [discriminate | constructor].
  - eapply Forall_impl; [|exact H]. intros d. apply isDigit_isHexDigit.
Qed.

Lemma hex_body_no_amp hs :
  Forall (fun d => isHexDigit d = true) hs ->
  Forall (fun x => x <> 38%N) (35%N :: 120%N :: hs ++ [59%N]).
Proof.
  intros H. apply (@reference_body_no_amp [35%N; 120%N] hs); [|exact H].
  repeat constructor; discriminate.
Qed.

(** A literal decimal reference matches only the reference with the same
    digits. *)
Lemma matchAt_other_decimal pd ds :
  Forall (fun d => isDigit d = true) pd ->
  Forall (fun d => isDigit d = true) ds ->
  ds <> pd ->
  matchAt (lit (decimalReference pd)) (decimalReference ds) = None.
Proof.
  intros Hpd Hds Hne. rewrite matchAt_lit.
  destruct (startsWith _ _) eqn:E; [|reflexivity].
  exfalso. apply Hne.
  change (startsWith (ds ++ [59%N]) (pd ++ [59%N]) = true) in E.
  eapply startsWith_digits; [| |exact E];
    (eapply Forall_impl; [|eassumption]); intros d; apply isDigit_isHexDigit.
Qed.

Lemma all_digits (s : jstring) :
  forallb isDigit s = true -> Forall (fun d => isDigit d = true) s.
Proof. intros H. apply Forall_forall. apply forallb_forall. exact H. Qed.

(** A literal decimal reference of the decoders against a reference with
    other digits. *)
Ltac other_decimal :=
  first [ apply (@matchAt_other_decimal (js "39"))
        | apply (@matchAt_other_decimal (js "039"))
        | apply (@matchAt_other_decimal (js "8217"))
        | apply (@matchAt_other_decimal (js "8220"))
        | apply (@matchAt_other_decimal (js "8221"))
        | apply (@matchAt_other_decimal (js "8230")) ];
  [ apply all_digits; reflexivity | assumption | assumption ].

(** Leaves a reference that a step of the decoder cannot match. *)
Ltac keep_reference s body Hbody :=
  rewrite (@reference_unchanged _ _ s body eq_refl);
  [ | first [ exact (ampFirst_lit _) | exact ampFirst_decimalRef
            | exact ampFirst_hexRef ]
    | exact Hbody
    | first [ reflexivity | other_decimal ] ].

Lemma FloridaTrees_decodes_decimal ds :
  ds <> [] -> Forall (fun d => isDigit d = true) ds ->
  FloridaTrees.decodeEntities (decimalReference ds)
  = fromCharCode (numberOfDecimal ds).
Proof.
  intros Hne Hds.
  destruct (list_eq_dec N.eq_dec ds (js "39")) as [->|H39];
    [vm_compute; reflexivity|].
  pose proof (decimal_body_no_amp Hds) as Hb.
  unfold FloridaTrees.decodeEntities, replaceWith.
  do 6 keep_reference (decimalReference ds) (35 :: ds ++ [59])%N Hb.
  rewrite (replaceAll_decimalRef _ Hne Hds).
  change (group [(1, ds)] 1) with ds.
  apply replace_single_unit; [exact ampFirst_hexRef | reflexivity].
Qed.

Lemma FloridaTrees_decodes_hex hs :
  hs <> [] -> Forall (fun d => isHexDigit d = true) hs ->
  FloridaTrees.decodeEntities (hexReference hs)
  = fromCharCode (parseInt16 hs).
Proof.
  intros Hne Hhs.
  pose proof (hex_body_no_amp Hhs) as Hb.
  unfold FloridaTrees.decodeEntities, replaceWith.
  do 7 keep_reference (hexReference hs) (35 :: 120 :: hs ++ [59])%N Hb.
  rewrite (replaceAll_hexRef _ Hne Hhs). reflexivity.
Qed.

Lemma Lambda_decodes_decimal ds :
  ds <> [] -> Forall (fun d => isDigit d = true) ds ->
  Lambda.unescape (decimalReference ds) = fromCharCode (numberOfDecimal ds).
Proof.
  intros Hne Hds.
  destruct (list_eq_dec N.eq_dec ds (js "39")) as [->|H39];
    [vm_compute; reflexivity|].
  pose proof (decimal_body_no_amp Hds) as Hb.
  unfold Lambda.unescape, replaceWith.
  do 5 keep_reference (decimalReference ds) (35 :: ds ++ [59])%N Hb.
  rewrite (replaceAll_decimalRef _ Hne Hds). reflexivity.
Qed.

Lemma Lambda_keeps_hex hs :
  Forall (fun d => isHexDigit d = true) hs ->
  Lambda.unescape (hexReference hs) = hexReference hs.
Proof.
  intros Hhs. pose proof (hex_body_no_amp Hhs) as Hb.
  unfold Lambda.unescape, replaceWith.
  do 6 keep_reference (hexReference hs) (35 :: 120 :: hs ++ [59])%N Hb.
  reflexivity.
Qed.

Lemma Vercel_keeps_decimal ds :
  Forall (fun d => isDigit d = true) ds ->
  ~ In ds decodeTable ->
  Vercel.decode (decimalReference ds) = decimalReference ds.
Proof.
  intros Hds Hnot.
  assert (H1 : ds <> js "039") by (intros ->; apply Hnot; cbn; tauto).
  assert (H2 : ds <> js "8217") by (intros ->; apply Hnot; cbn; tauto).
  assert (H3 : ds <> js "8220") by (intros ->; apply Hnot; cbn; tauto).
  assert (H4 : ds <> js "8221") by (intros ->; apply Hnot; cbn; tauto).
  assert (H5 : ds <> js "8230") by (intros ->; apply Hnot; cbn; tauto).
  pose proof (decimal_body_no_amp Hds) as Hb.
  unfold Vercel.decode, replaceWith.
  do 9 keep_reference (decimalReference ds) (35 :: ds ++ [59])%N Hb.
  reflexivity.
Qed.

Lemma Vercel_keeps_hex hs :
  Forall (fun d => isHexDigit d = true) hs ->
  Vercel.decode (hexReference hs) = hexReference hs.
Proof.
  intros Hhs. pose proof (hex_body_no_amp Hhs) as Hb.
  unfold Vercel.decode, replaceWith.
  do 9 keep_reference (hexReference hs) (35 :: 120 :: hs ++ [59])%N Hb.
  reflexivity.
Qed.

(** C5, as stated, fails on two of the three decoders: [decode] of the
    ES-module revision knows a fixed table only and leaves [&#39;], [&#65;]
    and [&#x41;] as they are, and [unescape] of the CommonJS revision has
    no step for hexadecimal references. *)
Lemma C5_references_left_undecoded :
  Vercel.decode (js "&#39;") = js "&#39;" /\
  Vercel.decode (js "&#65;") = js "&#65;" /\
  Vercel.decode (js "&#x41;") = js "&#x41;" /\
  Lambda.unescape (js "&#x41;") = js "&#x41;".
Proof. vm_compute. repeat split. Qed.

(** C5, amended.  [decodeEntities] maps [&amp;], [&lt;], [&gt;], [&quot;]
    and [&#39;] to their characters, and every decimal and every
    hexadecimal reference whose value is below 65536 to the code unit of
    that value.  [unescape] does the same for the five named references and
    for decimal references, and leaves hexadecimal references as they are.
    [decode] maps [&amp;], [&lt;], [&gt;], [&quot;] and the five decimal
    references of its table, and leaves every other numeric reference as
    it is. *)
Theorem C5_entity_decoding :
  (FloridaTrees.decodeEntities (js "&amp;") = js "&" /\
   FloridaTrees.decodeEntities (js "&lt;") = js "<" /\
   FloridaTrees.decodeEntities (js "&gt;") = js ">" /\
   FloridaTrees.decodeEntities (js "&quot;") = [dquote] /\
   FloridaTrees.decodeEntities (js "&#39;") = js "'" /\
   FloridaTrees.decodeEntities (js "&#65;") = js "A" /\
   FloridaTrees.decodeEntities (js "&#x41;") = js "A" /\
   (forall ds, ds <> [] -> Forall (fun d => isDigit d = true) ds ->
               (valueOf 10 ds < 65536)%N ->
               FloridaTrees.decodeEntities (decimalReference ds) = [valueOf 10 ds]) /\
   (forall hs, hs <> [] -> Forall (fun d => isHexDigit d = true) hs ->
               (valueOf 16 hs < 65536)%N ->
               FloridaTrees.decodeEntities (hexReference hs) = [valueOf 16 hs]))
  /\
  (Lambda.unescape (js "&amp;") = js "&" /\
   Lambda.unescape (js "&lt;") = js "<" /\
   Lambda.unescape (js "&gt;") = js ">" /\
   Lambda.unescape (js "&quot;") = [dquote] /\
   Lambda.unescape (js "&#39;") = js "'" /\
   Lambda.unescape (js "&#65;") = js "A" /\
   (forall ds, ds <> [] -> Forall (fun d => isDigit d = true) ds ->
               (valueOf 10 ds < 65536)%N ->
               Lambda.unescape (decimalReference ds) = [valueOf 10 ds]) /\
   (forall hs, Forall (fun d => isHexDigit d = true) hs ->
               Lambda.unescape (hexReference hs) = hexReference hs))
  /\
  (Vercel.decode (js "&amp;") = js "&" /\
   Vercel.decode (js "&lt;") = js "<" /\
   Vercel.decode (js "&gt;") = js ">" /\
   Vercel.decode (js "&quot;") = [dquote] /\
   Vercel.decode (js "&#039;") = js "'" /\
   Vercel.decode (js "&#8217;") = js "'" /\
   Vercel.decode (js "&#8220;") = [dquote] /\
   Vercel.decode (js "&#8221;") = [dquote] /\
   Vercel.decode (js "&#8230;") = [8230%N] /\
   (forall ds, Forall (fun d => isDigit d = true) ds ->
               ~ In ds decodeTable ->
               Vercel.decode (decimalReference ds) = decimalReference ds) /\
   (forall hs, Forall (fun d => isHexDigit d = true) hs ->
               Vercel.decode (hexReference hs) = hexReference hs)).
Proof.
  split; [|split]; repeat apply conj;
    try match goal with
        | |- _ = _ => vm_compute; reflexivity
        end.
  - intros ds Hne Hds Hv. rewrite (FloridaTrees_decodes_decimal Hne Hds).
    apply toUint16_small, Hv.
  - intros hs Hne Hhs Hv. rewrite (FloridaTrees_decodes_hex Hne Hhs).
    apply toUint16_small, Hv.
  - intros ds Hne Hds Hv. rewrite (Lambda_decodes_decimal Hne Hds).
    apply toUint16_small, Hv.
  - apply Lambda_keeps_hex.
  - apply Vercel_keeps_decimal.
  - apply Vercel_keeps_hex.
Qed.


(** ** The theorems at sample inputs *)

Lemma C2_validation_gate_witness :
  exists a,
    fst (FloridaTrees.parseItem (sampleRuntime 0) sampleSourceA floridaBlock 0)
    = Some a /\
    FloridaTrees.title a = titleOfA floridaBlock /\
    FloridaTrees.link a = linkOfA floridaBlock /\
    FloridaTrees.description a = descOfA floridaBlock.
Proof.
  eexists. split; [vm_compute; reflexivity|].
  apply (proj1 (proj2 (proj2 (proj2 (proj2 C2_validation_gate))))
               (sampleRuntime 0) sampleSourceA floridaBlock 0).
  vm_compute. reflexivity.
Defined.

Lemma C3_unparsable_date_witness :
  exists a,
    FloridaTrees.parseItem (sampleRuntime 5000) sampleSourceA undatedBlock 0
    = (Some a, 1) /\
    FloridaTrees._pubTimestamp a = clockAt (sampleRuntime 5000) 0 /\
    FloridaTrees.title a = titleOfA undatedBlock /\
    FloridaTrees.link a = linkOfA undatedBlock.
Proof.
  apply (proj1 C3_unparsable_date (sampleRuntime 5000) sampleSourceA
               undatedBlock 0);
    try (vm_compute; reflexivity); vm_compute; discriminate.
Defined.


Lemma C5_entity_decoding_witness :
  FloridaTrees.decodeEntities (decimalReference (js "65"))
  = [valueOf 10 (js "65")].
Proof.
  apply (proj1 (proj2 (proj2 (proj2 (proj2 (proj2 (proj2 (proj2
           (proj1 C5_entity_decoding))))))))).
  - discriminate.
  - repeat constructor.
  - reflexivity.
Defined.

Lemma C6_cache_freshness_witness :
  FloridaTrees.handler (sampleRuntime 300999) partialOutage (js "GET")
                       warmCache 0
  = (hitResponse warmPayload, warmCache, 1) /\
  FloridaTrees.handler (sampleRuntime 301001) partialOutage (js "GET")
                       warmCache 0
  = FloridaTrees.rebuild (sampleRuntime 301001) partialOutage warmCache 1.
Proof.
  split.
  - apply (proj1 C6_cache_freshness (sampleRuntime 300999) partialOutage
                 (js "GET") warmCache warmPayload 0 eq_refl eq_refl).
    reflexivity.
  - apply (proj1 C6_cache_freshness (sampleRuntime 301001) partialOutage
                 (js "GET") warmCache warmPayload 0 eq_refl eq_refl).
    reflexivity.
Defined.

(** The fetch of [hempSource] fails and that of [sampleSourceA] gives a
    feed of one item: the article of that item is all that is gathered. *)
Lemma C8_partial_failure_isolation_witness :
  FloridaTrees.gatherAll (sampleRuntime 0) partialOutage
                         ([] ++ hempSource :: [sampleSourceA]) 0
  = ([ {| FloridaTrees.title := js "Florida Hemp Bill Advances";
          FloridaTrees.link := js "https://example.com/fl";
          FloridaTrees.description := [];
          FloridaTrees.thumbnail := [];
          FloridaTrees.pubDate := js "Thu, 01 Jan 2026 00:00:00 GMT";
          FloridaTrees._pubTimestamp := 1767225600000;
          FloridaTrees._source := js "Florida Marijuana";
          FloridaTrees._sourceLabel := js "FL Marijuana" |} ], 0).
Proof.
  eapply eq_trans.
  { apply (proj1 (proj2 (proj2 C8_partial_failure_isolation))). reflexivity. }
  eapply eq_trans.
  { apply (proj1 (proj2 C8_partial_failure_isolation)
             (sampleRuntime 0) partialOutage sampleSourceA
             (js "<rss><channel><item>" ++ floridaBlock
                 ++ js "</item></channel></rss>")).
    reflexivity. }
  vm_compute. reflexivity.
Defined.

Lemma C10_total_outage_status_200_witness :
  exists now,
    fst (fst (FloridaTrees.handler (sampleRuntime 400000) outage (js "GET")
                                   warmCache 0))
    = emptyMissResponse
        {| FloridaTrees.ok := true; FloridaTrees.count := 0;
           FloridaTrees.fetchedAt := now; FloridaTrees.articles := [] |}.
Proof.
  apply (proj1 C10_total_outage_status_200).
  - reflexivity.
  - intros s _. reflexivity.
  - reflexivity.
Defined.

(* ================================================================== *)
(** * Further properties *)

(** ** Transport *)




(** X3.  [get] of the CommonJS revision settles a chain of 301/302
    responses as soon as it may make one request more than the chain has
    hops, and then resolves with the body of the last response whatever
    its status; with fewer requests the promise is still pending. *)
Theorem get_follows_chain web u hops final res fuel :
  MovedChain web u hops final ->
  request web final = Some res ->
  isMoved res = false ->
  Lambda.get web fuel u =
  if length hops <? fuel then Some (text res) else None.
Proof.
  intros C Hres Hnot. revert fuel.
  induction C as [u | u hops final r Hr Hmov C IH]; intros fuel.
  - destruct fuel; [reflexivity|]. cbn [Lambda.get length].
    rewrite Hres. fold (isMoved res). rewrite Hnot. reflexivity.
  - destruct fuel as [|fuel]; [reflexivity|].
    cbn [Lambda.get length]. rewrite Hr. fold (isMoved r). rewrite Hmov.
    rewrite IH by assumption. reflexivity.
Qed.

(** X4.  When every URL answers 301 or 302 with a location, the promise
    of [get] is never settled: no number of requests ends the loop. *)
Theorem get_never_settles_in_loop web u :
  (forall v, exists res, request web v = Some res /\ isMoved res = true) ->
  forall fuel, Lambda.get web fuel u = None.
Proof.
  intros H fuel. revert u. induction fuel as [|fuel IH]; intros u;
    [reflexivity|].
  destruct (H u) as [res [Hr Hmov]]. cbn [Lambda.get]. rewrite Hr.
  fold (isMoved res). rewrite Hmov. apply IH.
Qed.


Lemma get_follows_chain_witness :
  Lambda.get sampleWeb 1 (js "https://gone.example/") =
  (if length (@nil jstring) <? 1 then Some (Some (js "Not Found")) else None).
Proof.
  apply (@get_follows_chain sampleWeb _ [] (js "https://gone.example/")
           {| statusCode := 404; location := [];
              text := Some (js "Not Found") |}).
  - apply moved_end.
  - reflexivity.
  - reflexivity.
Defined.


Lemma get_never_settles_in_loop_witness :
  Lambda.get loopWeb 1000 (js "https://feed.example/") = None.
Proof.
  apply get_never_settles_in_loop.
  intros v. eexists. split; reflexivity.
Defined.

(** ** Decoders on plain text and on large references *)

Lemma replaceAll_no_amp r f s :
  ampFirst r -> Forall (fun x => x <> 38%N) s -> replaceAll r f s = s.
Proof.
  intros A H. unfold replaceAll. apply replace_unchanged.
  intros n. apply A, skipn_no_amp, H.
Qed.

(** X5.  Each of the three decoders returns a text that holds no ampersand
    as it is. *)
Theorem decoders_keep_text_without_ampersand s :
  Forall (fun x => x <> 38%N) s ->
  FloridaTrees.decodeEntities s = s /\
  Lambda.unescape s = s /\
  Vercel.decode s = s.
Proof.
  intros H.
  unfold FloridaTrees.decodeEntities, Lambda.unescape, Vercel.decode,
    replaceWith.
  repeat split;
    repeat (rewrite (@replaceAll_no_amp _ _ s);
            [ | first [ exact (ampFirst_lit _) | exact ampFirst_decimalRef
                      | exact ampFirst_hexRef ] | exact H ]);
    reflexivity.
Qed.

Lemma fromCharCode_wraps v :
  (v < 2 ^ 53)%N -> fromCharCode (toNumber v) = [(v mod 65536)%N].
Proof.
  intros H. unfold fromCharCode, toUint16, toNumber.
  apply N.ltb_lt in H. rewrite H. reflexivity.
Qed.

(** X6.  A numeric reference whose value is 65536 or more is not decoded
    to the character of that code point: [decodeEntities] and [unescape]
    give the single code unit that is the value modulo 65536 (for values
    below 2^53, which a Number holds exactly). *)
Theorem numeric_references_wrap_at_16_bits :
  (forall ds, ds <> [] -> Forall (fun d => isDigit d = true) ds ->
              (valueOf 10 ds < 2 ^ 53)%N ->
              FloridaTrees.decodeEntities (decimalReference ds)
              = [(valueOf 10 ds mod 65536)%N] /\
              Lambda.unescape (decimalReference ds)
              = [(valueOf 10 ds mod 65536)%N]) /\
  (forall hs, hs <> [] -> Forall (fun d => isHexDigit d = true) hs ->
              (valueOf 16 hs < 2 ^ 53)%N ->
              FloridaTrees.decodeEntities (hexReference hs)
              = [(valueOf 16 hs mod 65536)%N]).
Proof.
  split.
  - intros ds Hne Hds Hv.
    rewrite (FloridaTrees_decodes_decimal Hne Hds),
      (Lambda_decodes_decimal Hne Hds).
    split; apply fromCharCode_wraps, Hv.
  - intros hs Hne Hhs Hv. rewrite (FloridaTrees_decodes_hex Hne Hhs).
    apply fromCharCode_wraps, Hv.
Qed.

Lemma decoders_keep_text_without_ampersand_witness :
  FloridaTrees.decodeEntities (js "Florida <hemp> bill") = js "Florida <hemp> bill" /\
  Lambda.unescape (js "Florida <hemp> bill") = js "Florida <hemp> bill" /\
  Vercel.decode (js "Florida <hemp> bill") = js "Florida <hemp> bill".
Proof.
  apply decoders_keep_text_without_ampersand.
  repeat constructor; discriminate.
Defined.

(** The reference [&#128512;], whose code point is U+1F600, decodes to the
    single unit U+F600. *)
Lemma numeric_references_wrap_at_16_bits_witness :
  FloridaTrees.decodeEntities (decimalReference (js "128512"))
  = [(valueOf 10 (js "128512") mod 65536)%N] /\
  Lambda.unescape (decimalReference (js "128512"))
  = [(valueOf 10 (js "128512") mod 65536)%N].
Proof.
  apply (proj1 numeric_references_wrap_at_16_bits).
  - discriminate.
  - repeat constructor.
  - reflexivity.
Defined.

(** ** Classifiers *)

Lemma existsb_includes_occurs text kws :
  existsb (fun k => includes text k) kws = true <->
  exists k, In k kws /\ occursIn k text.
Proof.
  rewrite existsb_exists. split; intros [k [Hk H]]; exists k;
    (split; [exact Hk | apply includes_occursIn, H]).
Qed.

Lemma existsb_includes_none text kws :
  existsb (fun k => includes text k) kws = false <-> noneOccurs kws text.
Proof.
  unfold noneOccurs. split.
  - intros H k Hk Ho.
    assert (T : existsb (fun k => includes text k) kws = true)
      by (apply existsb_includes_occurs; exists k; split; assumption).
    congruence.
  - intros H. destruct (existsb _ kws) eqn:E; [|reflexivity].
    apply existsb_includes_occurs in E. destruct E as [k [Hk Ho]].
    exfalso. exact (H k Hk Ho).
Qed.

Lemma find_first (A : Type) (f : A -> bool) before x after :
  f x = true -> (forall b, In b before -> f b = false) ->
  find f (before ++ x :: after) = Some x.
Proof.
  intros Hx Hb. induction before as [|b before IH]; cbn [app find].
  - rewrite Hx. reflexivity.
  - rewrite (Hb b (or_introl eq_refl)). apply IH.
    intros b' Hb'. apply Hb. right. exact Hb'.
Qed.

Lemma CATS_not_general e : In e Vercel.CATS -> fst e <> js "general".
Proof.
  intros H. repeat (destruct H as [<-|H]; [vm_compute; discriminate|]).
  destruct H.
Qed.

(** X7.  [detectCat] gives the first category, in the order of [CATS],
    one of whose keywords occurs in the lower-cased text: a category wins
    whenever one of its keywords occurs and no keyword of an earlier
    category does, whatever the later categories hold.  The answer is
    [general] exactly when no keyword of any category occurs. *)
Theorem detectCat_first_category_wins :
  (forall title desc before c kws after,
      Vercel.CATS = before ++ (c, kws) :: after ->
      (exists k, In k kws /\ occursIn k (classifiedText title desc)) ->
      (forall e, In e before -> noneOccurs (snd e) (classifiedText title desc)) ->
      Vercel.detectCat title desc = c)
  /\
  (forall title desc,
      Vercel.detectCat title desc = js "general" <->
      (forall e, In e Vercel.CATS ->
                 noneOccurs (snd e) (classifiedText title desc))).
Proof.
  split.
  - intros title desc before c kws after HC Hk Hb.
    unfold Vercel.detectCat. fold (classifiedText title desc). rewrite HC.
    rewrite (@find_first _ _ before (c, kws) after); [reflexivity | |].
    + apply existsb_includes_occurs, Hk.
    + intros e He. apply existsb_includes_none, Hb, He.
  - intros title desc. unfold Vercel.detectCat.
    fold (classifiedText title desc).
    destruct (find _ Vercel.CATS) as [e|] eqn:F.
    + apply find_some in F. destruct F as [He Hf]. split.
      * intros G. exfalso. exact (CATS_not_general He G).
      * intros H. exfalso.
        apply existsb_includes_occurs in Hf. destruct Hf as [k [Hk Ho]].
        exact (H e He k Hk Ho).
    + split; [|reflexivity]. intros _ e He.
      apply existsb_includes_none. exact (find_none _ _ F e He).
Qed.


Lemma classifiedText_parts title desc :
  classifiedText title desc
  = toLowerCase title ++ js " " ++ toLowerCase desc.
Proof.
  unfold classifiedText, toLowerCase. rewrite !flat_map_app. reflexivity.
Qed.


(** X9.  The region keyword [fl ] ends in a space, and the filter joins
    title and description with a space: a title whose last two letters are
    [FL] in either case therefore always passes the region test, and its
    admission is decided by the topic keywords alone. *)
Theorem isRelevant_title_ending_in_fl t ending d :
  toLowerCase ending = js "fl" ->
  FloridaTrees.isRelevant (t ++ ending) d =
  existsb (fun w => includes (classifiedText (t ++ ending) d) w)
          FloridaTrees.CANNA_WORDS.
Proof.
  intros H. unfold FloridaTrees.isRelevant.
  fold (classifiedText (t ++ ending) d).
  assert (O : includes (classifiedText (t ++ ending) d) (js "fl ") = true).
  { apply includes_occursIn. exists (toLowerCase t), (toLowerCase d).
    rewrite classifiedText_parts. unfold toLowerCase at 1.
    rewrite flat_map_app. fold (toLowerCase t). fold (toLowerCase ending).
    rewrite H, <- !app_assoc. reflexivity. }
  unfold FloridaTrees.FL_WORDS. cbn [existsb]. rewrite O, orb_true_r.
  reflexivity.
Qed.

Lemma detectCat_first_category_wins_witness :
  Vercel.detectCat (js "Florida Senate Advances Medical Marijuana") []
  = js "policy".
Proof.
  eapply (proj1 detectCat_first_category_wins _ _ []).
  - reflexivity.
  - exists (js "senate"). split; [vm_compute; tauto|].
    exists (js "florida "), (js " advances medical marijuana ").
    reflexivity.
  - intros e [].
Defined.


Lemma isRelevant_title_ending_in_fl_witness :
  FloridaTrees.isRelevant (js "Cannabis sponsors banned by the N" ++ js "FL") []
  = existsb (fun w => includes (classifiedText
                                  (js "Cannabis sponsors banned by the N" ++ js "FL") []) w)
            FloridaTrees.CANNA_WORDS.
Proof.
  apply isRelevant_title_ending_in_fl. reflexivity.
Defined.

(** ** Deduplication: what the filter keeps *)

Section KeepFirstFacts.
Variable A : Type.
Variable key : A -> jstring.

Lemma existsb_jeqb_In k seen : existsb (jeqb k) seen = true <-> In k seen.
Proof.
  rewrite existsb_exists. split.
  - intros [k' [Hk E]]. apply jeqb_eq in E. subst. exact Hk.
  - intros H. exists k. split; [exact H | apply jeqb_refl].
Qed.

Lemma keepFirst_fresh seen l a :
  In a (keepFirst key seen l) -> ~ In (key a) seen.
Proof.
  revert seen. induction l as [|b l IH]; intros seen H; [destruct H|].
  cbn [keepFirst] in H. destruct (existsb (jeqb (key b)) seen) eqn:E.
  - apply IH, H.
  - destruct H as [<-|H].
    + intros Hin. apply existsb_jeqb_In in Hin. congruence.
    + intros Hin. apply (IH _ H). right. exact Hin.
Qed.

Lemma keepFirst_In seen l a : In a (keepFirst key seen l) -> In a l.
Proof.
  revert seen. induction l as [|b l IH]; intros seen H; [destruct H|].
  cbn [keepFirst] in H. destruct (existsb (jeqb (key b)) seen).
  - right. eapply IH, H.
  - destruct H as [<-|H]; [left; reflexivity | right; eapply IH, H].
Qed.

Lemma keepFirst_NoDup seen l : NoDup (map key (keepFirst key seen l)).
Proof.
  revert seen. induction l as [|b l IH]; intros seen; [constructor|].
  cbn [keepFirst]. destruct (existsb (jeqb (key b)) seen); [apply IH|].
  cbn [map]. constructor; [|apply IH].
  intros Hin. apply in_map_iff in Hin. destruct Hin as [a [Ea Ha]].
  apply keepFirst_fresh in Ha. apply Ha. left. symmetry. exact Ea.
Qed.

Lemma keepFirst_covers seen l a :
  In a l -> In (key a) seen \/ In (key a) (map key (keepFirst key seen l)).
Proof.
  revert seen. induction l as [|b l IH]; intros seen H; [destruct H|].
  cbn [keepFirst]. destruct (existsb (jeqb (key b)) seen) eqn:E.
  - destruct H as [<-|H]; [left; apply existsb_jeqb_In, E | apply IH, H].
  - cbn [map]. destruct H as [<-|H]; [right; left; reflexivity|].
    destruct (IH (key b :: seen) H) as [[Eq|Hs]|Hk].
    + right. left. exact Eq.
    + left. exact Hs.
    + right. right. exact Hk.
Qed.

Lemma keepFirst_distinct seen l :
  NoDup (map key l) -> (forall a, In a l -> ~ In (key a) seen) ->
  keepFirst key seen l = l.
Proof.
  revert seen. induction l as [|b l IH]; intros seen Hnd Hs; [reflexivity|].
  cbn [keepFirst]. cbn [map] in Hnd. inversion Hnd as [|? ? Hb Hl]; subst.
  destruct (existsb (jeqb (key b)) seen) eqn:E.
  - exfalso. apply (Hs b (or_introl eq_refl)). apply existsb_jeqb_In, E.
  - f_equal. apply IH; [exact Hl|].
    intros a Ha [Eq|Hin].
    + apply Hb. rewrite Eq. apply in_map, Ha.
    + apply (Hs a (or_intror Ha) Hin).
Qed.

Lemma keepFirst_idempotent l :
  keepFirst key [] (keepFirst key [] l) = keepFirst key [] l.
Proof.
  apply keepFirst_distinct; [apply keepFirst_NoDup | intros a _ []].
Qed.
End KeepFirstFacts.

Lemma filter_hasTitleAndLink_kept rt raw a :
  In a (Vercel.dedupFrom rt [] raw) -> hasTitleAndLink a = true.
Proof.
  rewrite Vercel_dedupFrom_keepFirst. intros H.
  apply keepFirst_In, filter_In in H. apply H.
Qed.

Lemma filter_all (A : Type) (f : A -> bool) l :
  (forall a, In a l -> f a = true) -> filter f l = l.
Proof.
  induction l as [|b l IH]; intros H; [reflexivity|].
  cbn [filter]. rewrite (H b (or_introl eq_refl)). f_equal.
  apply IH. intros a Ha. apply H. right. exact Ha.
Qed.

Lemma FloridaTrees_dedup_NoDup items :
  NoDup (map keyOfA (FloridaTrees.dedup items)).
Proof.
  unfold FloridaTrees.dedup. rewrite FloridaTrees_dedupFrom_keepFirst.
  apply keepFirst_NoDup.
Qed.

Lemma FloridaTrees_dedup_In items a :
  In a (FloridaTrees.dedup items) -> In a items.
Proof.
  unfold FloridaTrees.dedup. rewrite FloridaTrees_dedupFrom_keepFirst.
  apply keepFirst_In.
Qed.

Lemma Lambda_dedup_NoDup raw : NoDup (map keyOfC (Lambda.dedupFrom [] raw)).
Proof. rewrite Lambda_dedupFrom_keepFirst. apply keepFirst_NoDup. Qed.

Lemma Lambda_dedup_In raw a : In a (Lambda.dedupFrom [] raw) -> In a raw.
Proof. rewrite Lambda_dedupFrom_keepFirst. apply keepFirst_In. Qed.

Lemma Vercel_dedup_NoDup rt raw :
  NoDup (map (keyOfB rt) (Vercel.dedupFrom rt [] raw)).
Proof. rewrite Vercel_dedupFrom_keepFirst. apply keepFirst_NoDup. Qed.

Lemma Vercel_dedup_In rt raw a :
  In a (Vercel.dedupFrom rt [] raw) -> In a raw.
Proof.
  rewrite Vercel_dedupFrom_keepFirst. intros H.
  apply keepFirst_In, filter_In in H. apply H.
Qed.

(** X10.  In every revision the deduplication keeps articles of the input
    only, keeps no two articles with the same key, and keeps an article
    for every key of the input (in the ES-module revision: for every key
    of an article with a title and a link).  Deduplicating a second time
    changes nothing. *)
Theorem dedup_one_article_per_key :
  (forall items,
      let kept := FloridaTrees.dedup items in
      NoDup (map keyOfA kept) /\
      (forall a, In a kept -> In a items) /\
      (forall a, In a items -> In (keyOfA a) (map keyOfA kept)) /\
      FloridaTrees.dedup kept = kept)
  /\
  (forall raw,
      let kept := Lambda.dedupFrom [] raw in
      NoDup (map keyOfC kept) /\
      (forall a, In a kept -> In a raw) /\
      (forall a, In a raw -> In (keyOfC a) (map keyOfC kept)) /\
      Lambda.dedupFrom [] kept = kept)
  /\
  (forall rt raw,
      let kept := Vercel.dedupFrom rt [] raw in
      NoDup (map (keyOfB rt) kept) /\
      (forall a, In a kept -> In a raw /\ hasTitleAndLink a = true) /\
      (forall a, In a raw -> hasTitleAndLink a = true ->
                 In (keyOfB rt a) (map (keyOfB rt) kept)) /\
      Vercel.dedupFrom rt [] kept = kept).
Proof.
  repeat apply conj.
  - intros items kept. subst kept. repeat apply conj;
      [apply FloridaTrees_dedup_NoDup | intros a; apply FloridaTrees_dedup_In
      | | ]; unfold FloridaTrees.dedup;
      rewrite !FloridaTrees_dedupFrom_keepFirst.
    + intros a Ha.
      destruct (keepFirst_covers (fun a => FloridaTrees.dedupKey (FloridaTrees.title a))
                                 [] items a Ha) as [[]|H].
      exact H.
    + apply keepFirst_idempotent.
  - intros raw kept. subst kept. repeat apply conj;
      [apply Lambda_dedup_NoDup | intros a; apply Lambda_dedup_In | | ];
      rewrite !Lambda_dedupFrom_keepFirst.
    + intros a Ha.
      destruct (keepFirst_covers (fun a => Lambda.dedupKey (Lambda.title a))
                                 [] raw a Ha) as [[]|H].
      exact H.
    + apply keepFirst_idempotent.
  - intros rt raw kept. subst kept. repeat apply conj.
    + apply Vercel_dedup_NoDup.
    + intros a Ha.
      split; [eapply Vercel_dedup_In, Ha | eapply filter_hasTitleAndLink_kept, Ha].
    + intros a Ha Hv. rewrite Vercel_dedupFrom_keepFirst.
      assert (Hf : In a (filter hasTitleAndLink raw))
        by (apply filter_In; split; assumption).
      destruct (keepFirst_covers (fun a => Vercel.dedupKey rt (Vercel.title a))
                                 [] _ a Hf) as [[]|H].
      exact H.
    + rewrite (Vercel_dedupFrom_keepFirst rt [] (Vercel.dedupFrom rt [] raw)).
      rewrite filter_all by (intros a; apply filter_hasTitleAndLink_kept).
      rewrite Vercel_dedupFrom_keepFirst. apply keepFirst_idempotent.
Qed.

Lemma FloridaTrees_dedupKey_empty t :
  Forall (fun c => leavesNoKey c = true) (firstn 65 t) ->
  FloridaTrees.dedupKey t = [].
Proof.
  intros H. rewrite FloridaTrees_dedupKey_filter.
  apply lower_punctuation_no_key, H.
Qed.

(** X11.  In the revision with the relevance gate a title whose first 65
    units hold no ASCII letter and no digit has the empty key.  All such
    titles share that key, so of two articles with such titles only the
    first one is kept, however different the titles are. *)
Theorem dedup_collapses_titles_without_ascii_alnum a b :
  Forall (fun c => leavesNoKey c = true) (firstn 65 (FloridaTrees.title a)) ->
  Forall (fun c => leavesNoKey c = true) (firstn 65 (FloridaTrees.title b)) ->
  keyOfA a = [] /\ keyOfA b = [] /\ FloridaTrees.dedup [a; b] = [a].
Proof.
  intros Ha Hb.
  pose proof (FloridaTrees_dedupKey_empty _ Ha) as Ka.
  pose proof (FloridaTrees_dedupKey_empty _ Hb) as Kb.
  unfold keyOfA. repeat split; try assumption.
  unfold FloridaTrees.dedup.
  rewrite FloridaTrees_dedupFrom_keepFirst, keepFirst_pair, Ka, Kb.
  reflexivity.
Qed.

(** Two titles in Cyrillic letters. *)
Lemma dedup_collapses_titles_without_ascii_alnum_witness :
  let a := storyA [1082; 1086; 1085; 1086; 1087; 1083; 1103]%N 2000 in
  let b := storyA [1079; 1072; 1082; 1086; 1085]%N 1000 in
  keyOfA a = [] /\ keyOfA b = [] /\ FloridaTrees.dedup [a; b] = [a].
Proof.
  apply dedup_collapses_titles_without_ascii_alnum;
    repeat constructor.
Defined.

(** ** What the parsers emit *)

Lemma collectItems_Forall (A : Type) (body : jstring -> Clock (option A))
      (P : A -> Prop) blocks t :
  (forall b t' a, fst (body b t') = Some a -> P a) ->
  Forall P (fst (collectItems body blocks t)).
Proof.
  intros H. revert t. induction blocks as [|b bs IH]; intros t.
  - constructor.
  - cbn [collectItems]. rewrite !bind_run. cbn [ret fst].
    destruct (fst (body b t)) as [a|] eqn:E; [constructor|]; try apply IH.
    exact (H b t a E).
Qed.

Lemma successes_In (S : Type) (url : S -> jstring) fetch sources s xml :
  In (s, xml) (successes url fetch sources) <->
  In s sources /\ fetch (url s) = Some xml.
Proof.
  unfold successes. rewrite in_flat_map. split.
  - intros [s' [Hs H]]. destruct (fetch (url s')) as [x|] eqn:E; [|destruct H].
    destruct H as [H|[]]. injection H as -> ->. split; assumption.
  - intros [Hs E]. exists s. split; [exact Hs|]. rewrite E. left. reflexivity.
Qed.

Lemma parseAndConcat_Forall (S A : Type)
      (parse : jstring -> S -> Clock (list A)) (P : S -> A -> Prop) docs t :
  (forall s xml t', Forall (P s) (fst (parse xml s t'))) ->
  Forall (fun a => exists s xml, In (s, xml) docs /\ P s a)
         (fst (parseAndConcat parse docs t)).
Proof.
  intros H. revert t. induction docs as [|[s xml] docs IH]; intros t.
  - constructor.
  - rewrite parseAndConcat_cons.
    pose proof (H s xml t) as Hs.
    destruct (parse xml s t) as [items t1]. cbn [fst] in Hs.
    pose proof (IH t1) as Hr.
    destruct (parseAndConcat parse docs t1) as [rest t2]. cbn [fst] in *.
    apply Forall_app. split.
    + eapply Forall_impl; [|exact Hs]. intros a Ha.
      exists s, xml. split; [left; reflexivity | exact Ha].
    + eapply Forall_impl; [|exact Hr]. intros a [s' [x' [Hin Ha]]].
      exists s', x'. split; [right; exact Hin | exact Ha].
Qed.

Lemma FloridaTrees_parseItem_wellFormed rt source b t a :
  fst (FloridaTrees.parseItem rt source b t) = Some a -> wellFormedA source a.
Proof.
  rewrite FloridaTrees_parseItem_cases.
  destruct (truthy (titleOfA b)) eqn:Et; [|discriminate].
  destruct (truthy (linkOfA b)) eqn:El; [|discriminate].
  destruct (startsWith (linkOfA b) (js "http")) eqn:Es; [|discriminate].
  cbn [andb]. destruct (timeOf rt (pubDateOfA b) t) as [ts t1].
  destruct (FloridaTrees.isRelevant (titleOfA b) (descOfA b)) eqn:Er;
    [|discriminate].
  destruct (match ts with None => _ | Some v => _ end) as [stamp t2].
  cbn [fst]. intros H. injection H as <-. unfold wellFormedA.
  cbn [FloridaTrees.title FloridaTrees.link FloridaTrees.description
       FloridaTrees.thumbnail FloridaTrees._source FloridaTrees._sourceLabel].
  repeat apply conj; try reflexivity; try assumption.
  - apply truthy_nonempty, Et.
  - unfold descOfA, slice0. apply firstn_le_length.
  - cbv zeta.
    match goal with
    | |- context [if ?c then _ else _] => destruct c eqn:E
    end; [right; exact E | left; reflexivity].
Qed.

Lemma Lambda_parseItem_wellFormed rt label b t a :
  fst (Lambda.parseItem rt label b t) = Some a -> wellFormedC label a.
Proof.
  rewrite Lambda_parseItem_cases.
  destruct (truthy (titleOfC b)) eqn:Et; [|discriminate].
  destruct (truthy (linkOfC b)) eqn:El; [|discriminate].
  cbn [andb]. destruct (timeOf rt (pubDateOfC b) t) as [ts t1].
  destruct (match ts with None => _ | Some v => _ end) as [stamp t2].
  cbn [fst]. intros H. injection H as <-. unfold wellFormedC.
  cbn [Lambda.title Lambda.link Lambda.description Lambda.thumbnail
       Lambda._sourceLabel].
  repeat apply conj; try reflexivity.
  - apply truthy_nonempty, Et.
  - apply truthy_nonempty, El.
  - unfold descOfC. destruct (firstGroup _ b); [|cbn; lia].
    unfold slice0. apply firstn_le_length.
  - cbv zeta.
    match goal with
    | |- context [if ?c then _ else _] => destruct c eqn:E
    end; [right; exact E | left; reflexivity].
Qed.

(** Every article gathered from a list of sources is an article that the
    parser emitted for one of the sources whose fetch succeeded. *)
Lemma gathered_Forall (S A : Type) (url : S -> jstring)
      (parse : jstring -> S -> Clock (list A)) (P : S -> A -> Prop)
      (fetch : Transport) sources t :
  (forall s xml t', Forall (P s) (fst (parse xml s t'))) ->
  Forall (fun a => exists s xml,
              (In s sources /\ fetch (url s) = Some xml) /\ P s a)
         (fst (parseAndConcat parse (successes url fetch sources) t)).
Proof.
  intros H.
  eapply Forall_impl; [|apply (@parseAndConcat_Forall _ _ parse P), H].
  intros a [s [xml [Hin Ha]]]. exists s, xml.
  split; [apply successes_In, Hin | exact Ha].
Qed.

Lemma FloridaTrees_parseRSS_wellFormed rt xml source t :
  Forall (wellFormedA source) (fst (FloridaTrees.parseRSS rt xml source t)).
Proof.
  unfold FloridaTrees.parseRSS.
  rewrite FloridaTrees_parseBlocks_collect. apply collectItems_Forall.
  intros b t' a. apply FloridaTrees_parseItem_wellFormed.
Qed.

Lemma Lambda_parseItems_wellFormed rt xml label t :
  Forall (wellFormedC label) (fst (Lambda.parseItems rt xml label t)).
Proof.
  unfold Lambda.parseItems.
  rewrite Lambda_parseBlocks_collect. apply collectItems_Forall.
  intros b t' a. apply Lambda_parseItem_wellFormed.
Qed.

(** X12.  Every article that the orchestrator of the revision with the
    relevance gate gathers comes from a configured source whose fetch
    succeeded, bears the name and the label of that source, has a
    non-empty title, a link that starts with [http], a description of at
    most 280 units, a thumbnail that is empty or starts with [http], and
    passes the relevance filter with its own title and description. *)
Theorem FloridaTrees_gathered_articles_wellFormed rt fetch sources t :
  Forall (fun a => exists source xml,
              (In source sources /\ fetch (FloridaTrees.url source) = Some xml)
              /\ wellFormedA source a)
         (fst (FloridaTrees.gatherAll rt fetch sources t)).
Proof.
  rewrite FloridaTrees_gatherAll_successes.
  apply (@gathered_Forall _ _ FloridaTrees.url (FloridaTrees.parseRSS rt)
           wellFormedA).
  intros s xml t'. apply FloridaTrees_parseRSS_wellFormed.
Qed.

(** X13.  Every article that the orchestrator of the CommonJS revision
    gathers comes from a configured source whose fetch succeeded, bears
    its label, has a non-empty title and a non-empty link, a description
    of at most 260 units and a thumbnail that is empty or starts with
    [http]. *)
Theorem Lambda_gathered_articles_wellFormed rt get sources t :
  Forall (fun a => exists source xml,
              (In source sources /\ get (Lambda.url source) = Some xml)
              /\ wellFormedC (Lambda.label source) a)
         (fst (Lambda.gatherAll rt get sources t)).
Proof.
  rewrite Lambda_gatherAll_successes.
  apply (@gathered_Forall _ _ Lambda.url
           (fun xml s => Lambda.parseItems rt xml (Lambda.label s))
           (fun s => wellFormedC (Lambda.label s))).
  intros s xml t'. apply Lambda_parseItems_wellFormed.
Qed.

Lemma replaceWith_nonempty r t s :
  t <> [] -> s <> [] -> replaceWith r t s <> [].
Proof.
  intros Ht Hs. unfold replaceWith, replaceAll.
  destruct s as [|x s]; [congruence|]. cbn [replaceFrom].
  destruct (matchAt r (x :: s)) as [[c rest]|].
  - destruct t; [congruence | discriminate].
  - discriminate.
Qed.

Lemma decode_nonempty s : s <> [] -> Vercel.decode s <> [].
Proof.
  intros H. unfold Vercel.decode.
  repeat (apply replaceWith_nonempty; [discriminate|]). exact H.
Qed.

Lemma startsWith_length s p : startsWith s p = true -> length p <= length s.
Proof.
  intros H. apply startsWith_prefix in H. destruct H as [post ->].
  rewrite length_app. lia.
Qed.

(** A replacement that is never longer than what it replaces does not
    lengthen the string. *)
Lemma replaceFrom_length r f :
  (forall s c rest, matchAt r s = Some (c, rest) ->
                    length (f c) <= length s - length rest) ->
  forall s k, length (replaceFrom r f k s) <= length s - k.
Proof.
  intros H. induction s as [|x s IH]; intros k.
  - destruct k; cbn [replaceFrom]; [|cbn; lia].
    destruct (matchAt r []) as [[c rest]|] eqn:M; [|cbn; lia].
    apply H in M. rewrite length_app. cbn [length] in *. lia.
  - destruct k as [|k]; cbn [replaceFrom].
    + destruct (matchAt r (x :: s)) as [[c rest]|] eqn:M.
      * apply H in M. rewrite length_app.
        destruct (length (x :: s) - length rest) as [|n] eqn:En.
        -- pose proof (IH 0). cbn [length] in *. lia.
        -- pose proof (IH n). cbn [length] in *. lia.
      * pose proof (IH 0). cbn [length] in *. lia.
    + pose proof (IH k). cbn [length]. lia.
Qed.

Lemma replaceWith_lit_length p t s :
  length t <= length p -> length (replaceWith (lit p) t s) <= length s.
Proof.
  intros H. unfold replaceWith, replaceAll.
  pose proof (@replaceFrom_length (lit p) (fun _ => t)) as L.
  rewrite <- (Nat.sub_0_r (length s)). apply L.
  intros s' c rest M. rewrite matchAt_lit in M.
  destruct (startsWith s' p) eqn:E; [|discriminate].
  injection M as _ <-. apply startsWith_length in E.
  rewrite length_skipn. lia.
Qed.

Lemma decode_length s : length (Vercel.decode s) <= length s.
Proof.
  unfold Vercel.decode.
  repeat (eapply Nat.le_trans;
          [apply replaceWith_lit_length; vm_compute; lia|]).
  apply Nat.le_refl.
Qed.

Lemma detectCat_label title desc :
  In (Vercel.detectCat title desc) categoryLabels.
Proof.
  unfold Vercel.detectCat, categoryLabels. apply in_or_app.
  destruct (find _ Vercel.CATS) as [e|] eqn:F.
  - left. apply find_some in F. apply in_map, F.
  - right. left. reflexivity.
Qed.

Lemma Some_inj (A : Type) (x y : A) : Some x = Some y -> x = y.
Proof. congruence. Qed.

Lemma slice0_length n s : length (slice0 n s) <= n.
Proof. unfold slice0. apply firstn_le_length. Qed.

Lemma Vercel_parseItem_wellFormed rt src b t a :
  fst (Vercel.parseItem rt src b t) = Some a -> wellFormedB src a.
Proof.
  rewrite Vercel_parseItem_cases.
  destruct (truthy (titleOfB b)) eqn:Et; [|discriminate].
  destruct (truthy (linkOfB b)) eqn:El; [|discriminate].
  cbn [andb]. destruct (timeOf rt (pubDateOfB b) t) as [[v|] t1];
    [|discriminate].
  cbn [fst]. intros H. apply Some_inj in H. subst a. unfold wellFormedB.
  cbn [Vercel.title Vercel.link Vercel.description Vercel.category
       Vercel.source Vercel.sourceLabel Vercel.sourceColor].
  repeat apply conj; try reflexivity.
  - apply decode_nonempty, truthy_nonempty, Et.
  - apply truthy_nonempty, El.
  - eapply Nat.le_trans; [apply decode_length | apply slice0_length].
  - apply detectCat_label.
Qed.

Lemma Vercel_parseRSS_wellFormed rt xml src t :
  Forall (wellFormedB src) (fst (Vercel.parseRSS rt xml src t)).
Proof.
  unfold Vercel.parseRSS.
  rewrite Vercel_parseBlocks_collect. apply collectItems_Forall.
  intros b t' a. apply Vercel_parseItem_wellFormed.
Qed.

(** X14.  Every article that the orchestrator of the ES-module revision
    gathers comes from a configured source whose fetch succeeded and bears
    its name, label and color; its decoded title and its link are
    non-empty, its description has at most 300 units and its category is
    one of the five labels of [CATS] or [general].  The test on title and
    link that the handler repeats therefore drops nothing. *)
Theorem Vercel_gathered_articles_wellFormed rt fetch sources t :
  let raw := fst (Vercel.gatherAll rt fetch sources t) in
  Forall (fun a => exists src xml,
              (In src sources /\ fetch (Vercel.url src) = Some xml)
              /\ wellFormedB src a) raw /\
  filter hasTitleAndLink raw = raw /\
  Vercel.dedupFrom rt [] raw = keepFirst (keyOfB rt) [] raw.
Proof.
  intros raw.
  assert (W : Forall (fun a => exists src xml,
                          (In src sources /\ fetch (Vercel.url src) = Some xml)
                          /\ wellFormedB src a) raw).
  { subst raw. rewrite Vercel_gatherAll_successes.
    apply (@gathered_Forall _ _ Vercel.url (Vercel.parseRSS rt) wellFormedB).
    intros s xml t'. apply Vercel_parseRSS_wellFormed. }
  assert (F : filter hasTitleAndLink raw = raw).
  { apply filter_all. intros a Ha. rewrite Forall_forall in W.
    destruct (W a Ha) as [s [xml [_ [Ht [Hl _]]]]].
    unfold hasTitleAndLink. apply truthy_nonempty in Ht, Hl.
    rewrite Ht, Hl. reflexivity. }
  repeat split; [exact W | exact F|].
  rewrite Vercel_dedupFrom_keepFirst, F. reflexivity.
Qed.

(** ** Payloads and the states of the cache *)

Lemma NoDup_firstn (A : Type) n (l : list A) : NoDup l -> NoDup (firstn n l).
Proof.
  intros H. rewrite <- (firstn_skipn n l) in H.
  eapply NoDup_app_remove_r, H.
Qed.

Section RankFacts.
Variable A : Type.
Variable key : A -> jstring.
Variable time : A -> Z.
Variable n : nat.

(** Sorting the kept articles and cutting the list keeps the keys
    distinct, the order descending, and takes articles of the kept list
    only. *)
Lemma ranked_invariants (kept : list A) :
  NoDup (map key kept) ->
  let out := firstn n (sortBy (descendingBy time) kept) in
  length out <= n /\
  Descending time out /\
  NoDup (map key out) /\
  (forall a, In a out -> In a kept).
Proof.
  intros Hnd out. subst out. repeat apply conj.
  - apply firstn_le_length.
  - apply firstn_descending, sortBy_descending.
  - rewrite <- firstn_map. apply NoDup_firstn.
    eapply Permutation_NoDup; [|exact Hnd].
    apply Permutation_sym, Permutation_map, sortBy_perm.
  - intros a Ha.
    eapply Permutation_in; [apply sortBy_perm|].
    rewrite <- (firstn_skipn n (sortBy _ kept)). apply in_or_app. left.
    exact Ha.
Qed.
End RankFacts.

Lemma FloridaTrees_rebuild_payload rt fetch cache t :
  exists p,
    body (fst (fst (FloridaTrees.rebuild rt fetch cache t))) = Json p /\
    FloridaTrees.data (snd (fst (FloridaTrees.rebuild rt fetch cache t)))
    = Some p /\
    wellFormedPayloadA p.
Proof.
  unfold FloridaTrees.rebuild. rewrite !bind_run.
  set (raw := fst (FloridaTrees.gatherAll rt fetch FloridaTrees.SOURCES t)).
  eexists. split; [reflexivity|]. split; [reflexivity|].
  unfold wellFormedPayloadA.
  cbn [FloridaTrees.ok FloridaTrees.count FloridaTrees.articles fst snd dateNow ret].
  assert (K : NoDup (map keyOfA (FloridaTrees.dedup raw)))
    by apply FloridaTrees_dedup_NoDup.
  destruct (ranked_invariants keyOfA FloridaTrees._pubTimestamp 120 _ K)
    as (L & D & N & I).
  repeat apply conj; try reflexivity; try assumption.
  apply Forall_forall. intros a Ha.
  apply I, FloridaTrees_dedup_In in Ha.
  assert (W := @gathered_Forall _ _ FloridaTrees.url (FloridaTrees.parseRSS rt)
                 wellFormedA fetch FloridaTrees.SOURCES t
                 (fun s xml t' => FloridaTrees_parseRSS_wellFormed rt xml s t')).
  rewrite <- FloridaTrees_gatherAll_successes in W.
  rewrite Forall_forall in W. destruct (W a Ha) as [s [xml [[Hs _] Hw]]].
  exists s. split; assumption.
Qed.

Lemma Lambda_rebuild_payload rt get cache t :
  exists p,
    body (fst (fst (Lambda.rebuild rt get cache t))) = Json p /\
    wellFormedPayloadC p /\
    (Lambda.articles p = [] ->
     snd (fst (Lambda.rebuild rt get cache t)) = cache) /\
    (Lambda.articles p <> [] ->
     Lambda.data (snd (fst (Lambda.rebuild rt get cache t))) = Some p).
Proof.
  unfold Lambda.rebuild. rewrite !bind_run.
  set (raw := fst (Lambda.gatherAll rt get Lambda.SOURCES t)).
  eexists. split; [reflexivity|]. split.
  - unfold wellFormedPayloadC.
    cbn [Lambda.ok Lambda.count Lambda.articles fst snd dateNow ret].
    assert (K : NoDup (map keyOfC (Lambda.dedupFrom [] raw)))
      by apply Lambda_dedup_NoDup.
    destruct (ranked_invariants keyOfC Lambda._pubTimestamp 100 _ K)
      as (L & D & N & I).
    repeat apply conj; try reflexivity; try assumption.
    apply Forall_forall. intros a Ha.
    apply I, Lambda_dedup_In in Ha.
    assert (W := @gathered_Forall _ _ Lambda.url
                   (fun xml s => Lambda.parseItems rt xml (Lambda.label s))
                   (fun s => wellFormedC (Lambda.label s)) get Lambda.SOURCES t
                   (fun s xml t' =>
                      Lambda_parseItems_wellFormed rt xml (Lambda.label s) t')).
    rewrite <- Lambda_gatherAll_successes in W.
    rewrite Forall_forall in W. destruct (W a Ha) as [s [xml [[Hs _] Hw]]].
    exists s. split; assumption.
  - cbn [Lambda.articles fst snd dateNow ret]. unfold Lambda.store.
    cbn [Lambda.articles].
    destruct (Lambda.finalize raw) as [|a l]; cbn [length Nat.ltb Nat.leb];
      split; intros H; try congruence; reflexivity.
Qed.

(** X15.  In the revision with the relevance gate every state of the
    cache that the process can reach holds no payload or a well-formed
    one, and so does the body of every response with a payload: [ok] is
    true, [count] is the number of articles, there are at most 120 of
    them, they are sorted by timestamp descending, no two of them have the
    same key, and each one is a well-formed article of a configured
    source. *)
Theorem FloridaTrees_cache_invariant cache :
  ReachableA cache ->
  (forall p, FloridaTrees.data cache = Some p -> wellFormedPayloadA p) /\
  (forall rt fetch method t p,
      body (fst (fst (FloridaTrees.handler rt fetch method cache t))) = Json p ->
      wellFormedPayloadA p).
Proof.
  assert (Step : forall cache rt fetch method t,
             (forall p, FloridaTrees.data cache = Some p -> wellFormedPayloadA p) ->
             (forall p, body (fst (fst (FloridaTrees.handler rt fetch method cache t)))
                        = Json p -> wellFormedPayloadA p) /\
             (forall p, FloridaTrees.data
                          (snd (fst (FloridaTrees.handler rt fetch method cache t)))
                        = Some p -> wellFormedPayloadA p)).
  { intros c rt fetch method t Hc. unfold FloridaTrees.handler.
    destruct (jeqb method (js "OPTIONS")).
    - split; [intros p H; discriminate | exact Hc].
    - rewrite bind_run.
      destruct (FloridaTrees_rebuild_payload
                  rt fetch c (snd (FloridaTrees.isFresh rt c t)))
        as [q [Hb [Hd Hq]]].
      destruct (fst (FloridaTrees.isFresh rt c t)),
        (FloridaTrees.data c) as [p0|] eqn:E;
        try (split; intros p H; [rewrite Hb in H | rewrite Hd in H];
             injection H as <-; exact Hq).
      split.
      * cbn [fst body ret]. intros p H. injection H as <-. apply Hc.
        reflexivity.
      * cbn [fst snd ret]. intros p H. apply Hc. rewrite <- E. exact H. }
  intros R.
  assert (Inv : forall p, FloridaTrees.data cache = Some p -> wellFormedPayloadA p).
  { induction R as [|rt fetch method cache t R IH].
    - intros p H. discriminate.
    - apply (Step cache rt fetch method t IH). }
  split; [exact Inv|].
  intros rt fetch method t. apply (Step cache rt fetch method t Inv).
Qed.

(** X16.  In the CommonJS revision every payload that a reachable state
    of the cache holds is well-formed (at most 100 articles) and has at
    least one article, and the body of every response with a payload is
    well-formed. *)
Theorem Lambda_cache_invariant cache :
  ReachableC cache ->
  (forall p, Lambda.data cache = Some p ->
             wellFormedPayloadC p /\ Lambda.articles p <> []) /\
  (forall rt get method t p,
      body (fst (fst (Lambda.handler rt get method cache t))) = Json p ->
      wellFormedPayloadC p).
Proof.
  assert (Step : forall cache rt get method t,
             (forall p, Lambda.data cache = Some p ->
                        wellFormedPayloadC p /\ Lambda.articles p <> []) ->
             (forall p, body (fst (fst (Lambda.handler rt get method cache t)))
                        = Json p -> wellFormedPayloadC p) /\
             (forall p, Lambda.data
                          (snd (fst (Lambda.handler rt get method cache t)))
                        = Some p ->
                        wellFormedPayloadC p /\ Lambda.articles p <> [])).
  { intros c rt get method t Hc. unfold Lambda.handler.
    destruct (jeqb method (js "OPTIONS")).
    - split; [intros p H; discriminate | exact Hc].
    - rewrite bind_run.
      destruct (Lambda_rebuild_payload rt get c (snd (Lambda.isFresh rt c t)))
        as [q [Hb [Hq [He Hn]]]].
      assert (Rb : (forall p, body (fst (fst (Lambda.rebuild rt get c
                                   (snd (Lambda.isFresh rt c t))))) = Json p ->
                              wellFormedPayloadC p) /\
                   (forall p, Lambda.data (snd (fst (Lambda.rebuild rt get c
                                   (snd (Lambda.isFresh rt c t))))) = Some p ->
                              wellFormedPayloadC p /\ Lambda.articles p <> [])).
      { split.
        - intros p H. rewrite Hb in H. injection H as <-. exact Hq.
        - intros p H. destruct (Lambda.articles q) as [|a l] eqn:Ea.
          + rewrite (He eq_refl) in H. apply Hc, H.
          + rewrite Hn in H by discriminate. injection H as <-.
            split; [exact Hq | rewrite Ea; discriminate]. }
      destruct (fst (Lambda.isFresh rt c t)),
        (Lambda.data c) as [p0|] eqn:E; try exact Rb.
      split.
      * cbn [fst body ret]. intros p H. injection H as <-. apply Hc.
        reflexivity.
      * cbn [fst snd ret]. intros p H. apply Hc. rewrite <- E. exact H. }
  intros R.
  assert (Inv : forall p, Lambda.data cache = Some p ->
                          wellFormedPayloadC p /\ Lambda.articles p <> []).
  { induction R as [|rt get method cache t R IH].
    - intros p H. discriminate.
    - apply (Step cache rt get method t IH). }
  split; [exact Inv|].
  intros rt get method t. apply (Step cache rt get method t Inv).
Qed.

(** X17.  The body of every response of the ES-module handler that has a
    payload is well-formed: [ok] is true, [count] is the number of
    articles, they are sorted by date descending, no two have the same
    key, and each one is a well-formed article of a configured source. *)
Theorem Vercel_response_invariant rt fetch method t p :
  body (fst (Vercel.handler rt fetch method t)) = Json p ->
  wellFormedPayloadB rt p.
Proof.
  unfold Vercel.handler. destruct (jeqb method (js "OPTIONS"));
    [discriminate|].
  rewrite !bind_run. cbn [fst snd dateNow ret body]. intros H.
  injection H as <-. unfold wellFormedPayloadB.
  cbn [Vercel.ok Vercel.count Vercel.articles].
  set (raw := fst (Vercel.gatherAll rt fetch Vercel.SOURCES t)).
  assert (K : NoDup (map (keyOfB rt) (Vercel.dedupFrom rt [] raw)))
    by apply Vercel_dedup_NoDup.
  pose proof (sortBy_perm Vercel.pubDate (Vercel.dedupFrom rt [] raw)) as P.
  repeat apply conj; try reflexivity.
  - exact (sortBy_descending Vercel.pubDate (Vercel.dedupFrom rt [] raw)).
  - eapply Permutation_NoDup; [|exact K].
    apply Permutation_sym, Permutation_map, P.
  - apply Forall_forall. intros a Ha.
    apply (Permutation_in _ P) in Ha.
    apply Vercel_dedup_In in Ha.
    assert (W := @gathered_Forall _ _ Vercel.url (Vercel.parseRSS rt)
                   wellFormedB fetch Vercel.SOURCES t
                   (fun s xml t' => Vercel_parseRSS_wellFormed rt xml s t')).
    rewrite <- Vercel_gatherAll_successes in W.
    rewrite Forall_forall in W. destruct (W a Ha) as [s [xml [[Hs _] Hw]]].
    exists s. split; assumption.
Qed.

Lemma FloridaTrees_cache_invariant_witness :
  exists p,
    FloridaTrees.data
      (snd (fst (FloridaTrees.handler (sampleRuntime 0) partialOutage
                                      (js "GET") FloridaTrees.initialCache 0)))
    = Some p /\ wellFormedPayloadA p.
Proof.
  eexists. split; [vm_compute; reflexivity|].
  apply (proj1 (FloridaTrees_cache_invariant
                  (reachableA_request (sampleRuntime 0) partialOutage (js "GET") 0
                                      reachableA_initial))).
  vm_compute. reflexivity.
Defined.

Lemma Lambda_cache_invariant_witness :
  exists p,
    Lambda.data
      (snd (fst (Lambda.handler (sampleRuntime 0) allUp (js "GET")
                                Lambda.initialCache 0)))
    = Some p /\ wellFormedPayloadC p /\ Lambda.articles p <> [].
Proof.
  eexists. split; [vm_compute; reflexivity|].
  apply (proj1 (Lambda_cache_invariant
                  (reachableC_request (sampleRuntime 0) allUp (js "GET") 0
                                      reachableC_initial))).
  vm_compute. reflexivity.
Defined.

Lemma Vercel_response_invariant_witness :
  exists p,
    body (fst (Vercel.handler (sampleRuntime 0) partialOutageB (js "GET") 0))
    = Json p /\ wellFormedPayloadB (sampleRuntime 0) p.
Proof.
  eexists. split; [vm_compute; reflexivity|].
  apply (@Vercel_response_invariant (sampleRuntime 0) partialOutageB (js "GET") 0).
  vm_compute. reflexivity.
Defined.

(** ** Truncation and the cache after a rebuild *)

Lemma StronglySorted_app_order (A : Type) (R : A -> A -> Prop) l1 l2 :
  StronglySorted R (l1 ++ l2) ->
  forall a b, In a l1 -> In b l2 -> R a b.
Proof.
  induction l1 as [|x l1 IH]; intros H a b Ha Hb; [destruct Ha|].
  cbn [app] in H. inversion H as [|? ? Hs Hx]; subst.
  destruct Ha as [<-|Ha].
  - rewrite Forall_forall in Hx. apply Hx, in_or_app. right. exact Hb.
  - apply (IH Hs a b Ha Hb).
Qed.

(** X18.  What the truncation drops is never more recent than what it
    keeps: the deduplicated articles are the articles of the payload
    together with the dropped ones, and every article of the payload has a
    timestamp at least as large as that of every dropped article (the
    revision with the relevance gate cuts at 120, the CommonJS revision
    at 100). *)
Theorem truncation_drops_the_oldest :
  (forall raw,
      let dropped := skipn 120 (sortBy FloridaTrees.byRecency
                                       (FloridaTrees.dedup raw)) in
      Permutation (FloridaTrees.finalize raw ++ dropped) (FloridaTrees.dedup raw) /\
      forall a b, In a (FloridaTrees.finalize raw) -> In b dropped ->
                  (FloridaTrees._pubTimestamp a >= FloridaTrees._pubTimestamp b)%Z)
  /\
  (forall raw,
      let dropped := skipn 100 (sortBy Lambda.byRecency
                                       (Lambda.dedupFrom [] raw)) in
      Permutation (Lambda.finalize raw ++ dropped) (Lambda.dedupFrom [] raw) /\
      forall a b, In a (Lambda.finalize raw) -> In b dropped ->
                  (Lambda._pubTimestamp a >= Lambda._pubTimestamp b)%Z).
Proof.
  split; intros raw dropped; subst dropped.
  - unfold FloridaTrees.finalize. rewrite firstn_skipn. split.
    + exact (sortBy_perm FloridaTrees._pubTimestamp (FloridaTrees.dedup raw)).
    + apply StronglySorted_app_order. rewrite firstn_skipn.
      exact (sortBy_descending FloridaTrees._pubTimestamp (FloridaTrees.dedup raw)).
  - unfold Lambda.finalize. rewrite firstn_skipn. split.
    + exact (sortBy_perm Lambda._pubTimestamp (Lambda.dedupFrom [] raw)).
    + apply StronglySorted_app_order. rewrite firstn_skipn.
      exact (sortBy_descending Lambda._pubTimestamp (Lambda.dedupFrom [] raw)).
Qed.

Lemma truncation_drops_the_oldest_witness :
  (FloridaTrees._pubTimestamp (numberedA 120)
   >= FloridaTrees._pubTimestamp (numberedA 0))%Z.
Proof.
  apply (proj2 (proj1 truncation_drops_the_oldest manyArticlesA)).
  - vm_compute. left. reflexivity.
  - vm_compute. left. reflexivity.
Defined.





(** ** Timestamps *)

(** X21.  A block whose date parses keeps that date: when the gates of
    the revision pass, the article is emitted with the parsed time value
    as its timestamp and the clock is not read.  A block without a date
    gets the reading of the clock. *)
Theorem timestamp_of_emitted_article :
  (forall rt source b t,
      titleOfA b <> [] -> linkOfA b <> [] ->
      startsWith (linkOfA b) (js "http") = true ->
      FloridaTrees.isRelevant (titleOfA b) (descOfA b) = true ->
      (forall v, pubDateOfA b <> [] -> dateParse rt (pubDateOfA b) = Some v ->
                 exists a, FloridaTrees.parseItem rt source b t = (Some a, t) /\
                           FloridaTrees._pubTimestamp a = v) /\
      (pubDateOfA b = [] ->
       exists a, FloridaTrees.parseItem rt source b t = (Some a, S t) /\
                 FloridaTrees._pubTimestamp a = clockAt rt t))
  /\
  (forall rt label b t,
      titleOfC b <> [] -> linkOfC b <> [] ->
      (forall v, pubDateOfC b <> [] -> dateParse rt (pubDateOfC b) = Some v ->
                 exists a, Lambda.parseItem rt label b t = (Some a, t) /\
                           Lambda._pubTimestamp a = v) /\
      (pubDateOfC b = [] ->
       exists a, Lambda.parseItem rt label b t = (Some a, S t) /\
                 Lambda._pubTimestamp a = clockAt rt t))
  /\
  (forall rt src b t,
      titleOfB b <> [] -> linkOfB b <> [] ->
      (forall v, pubDateOfB b <> [] -> dateParse rt (pubDateOfB b) = Some v ->
                 exists a, Vercel.parseItem rt src b t = (Some a, t) /\
                           Vercel.pubDate a = v) /\
      (pubDateOfB b = [] ->
       exists a, Vercel.parseItem rt src b t = (Some a, S t) /\
                 Vercel.pubDate a = clockAt rt t)).
Proof.
  repeat apply conj.
  - intros rt source b t Ht Hl Hs Hr.
    apply truthy_nonempty in Ht, Hl. split.
    + intros v Hp Hd. apply truthy_nonempty in Hp.
      rewrite FloridaTrees_parseItem_cases, Ht, Hl, Hs, Hr. cbn [andb].
      unfold timeOf. rewrite Hp, Hd. cbn [ret]. eexists. split; reflexivity.
    + intros Hp. apply truthy_empty in Hp.
      rewrite FloridaTrees_parseItem_cases, Ht, Hl, Hs, Hr. cbn [andb].
      unfold timeOf. rewrite Hp, bind_run. cbn [dateNow ret fst snd].
      eexists. split; reflexivity.
  - intros rt label b t Ht Hl.
    apply truthy_nonempty in Ht, Hl. split.
    + intros v Hp Hd. apply truthy_nonempty in Hp.
      rewrite Lambda_parseItem_cases, Ht, Hl. cbn [andb].
      unfold timeOf. rewrite Hp, Hd. cbn [ret]. eexists. split; reflexivity.
    + intros Hp. apply truthy_empty in Hp.
      rewrite Lambda_parseItem_cases, Ht, Hl. cbn [andb].
      unfold timeOf. rewrite Hp, bind_run. cbn [dateNow ret fst snd].
      eexists. split; reflexivity.
  - intros rt src b t Ht Hl.
    apply truthy_nonempty in Ht, Hl. split.
    + intros v Hp Hd. apply truthy_nonempty in Hp.
      rewrite Vercel_parseItem_cases, Ht, Hl. cbn [andb].
      unfold timeOf. rewrite Hp, Hd. cbn [ret]. eexists. split; reflexivity.
    + intros Hp. apply truthy_empty in Hp.
      rewrite Vercel_parseItem_cases, Ht, Hl. cbn [andb].
      unfold timeOf. rewrite Hp, bind_run. cbn [dateNow ret fst snd].
      eexists. split; reflexivity.
Qed.

Lemma timestamp_of_emitted_article_witness :
  exists a,
    FloridaTrees.parseItem (sampleRuntime 5000) sampleSourceA floridaBlock 7
    = (Some a, 7) /\
    FloridaTrees._pubTimestamp a = 1767225600000%Z.
Proof.
  apply (proj1 (proj1 timestamp_of_emitted_article
                      (sampleRuntime 5000) sampleSourceA floridaBlock 7
                      ltac:(vm_compute; discriminate)
                      ltac:(vm_compute; discriminate)
                      ltac:(vm_compute; reflexivity)
                      ltac:(vm_compute; reflexivity))).
  - vm_compute. discriminate.
  - vm_compute. reflexivity.
Defined.

(** ** Documents without markup *)

Lemma matchAll_none r s :
  (forall n, matchAt r (skipn n s) = None) -> matchAllFrom r 0 s = [].
Proof.
  induction s as [|x s IH]; intros H; pose proof (H 0) as H0;
    cbn [skipn] in H0; cbn [matchAllFrom]; rewrite H0; [reflexivity|].
  apply IH. intros n. exact (H (S n)).
Qed.

Lemma itemRe_needs_lt s :
  match s with x :: _ => x <> 60%N | [] => True end ->
  matchAt itemRe s = None.
Proof.
  destruct s as [|x s]; intros H; [reflexivity|].
  unfold matchAt, itemRe. cbn [seqs mtch litCI js map list_ascii_of_string].
  change (N_of_ascii "<") with 60%N. unfold onlyCI at 1.
  change (canon 60) with 60%N.
  destruct (N.eqb_spec 60 (canon x)) as [E|E]; [|reflexivity].
  exfalso. apply H. unfold canon in E.
  destruct (isLowerAscii x) eqn:L; [|congruence].
  unfold isLowerAscii in L. apply andb_true_iff in L. destruct L as [L _].
  apply N.leb_le in L. lia.
Qed.

Lemma skipn_no_lt n (s : jstring) :
  Forall (fun x => x <> 60%N) s ->
  match skipn n s with x :: _ => x <> 60%N | [] => True end.
Proof.
  intros H. revert n. induction H as [|x s Hx _ IH]; intros [|n]; cbn [skipn];
    try exact I; [exact Hx | apply IH].
Qed.

(** X22.  A document that holds no [<], such as a plain-text or JSON
    error body, has no item: every parser returns the empty list and does
    not read the clock. *)
Theorem document_without_markup_has_no_item xml :
  Forall (fun x => x <> 60%N) xml ->
  itemBlocks xml = [] /\
  (forall rt source t, FloridaTrees.parseRSS rt xml source t = ([], t)) /\
  (forall rt label t, Lambda.parseItems rt xml label t = ([], t)) /\
  (forall rt src t, Vercel.parseRSS rt xml src t = ([], t)).
Proof.
  intros H.
  assert (B : itemBlocks xml = []).
  { unfold itemBlocks, matchAll. rewrite matchAll_none; [reflexivity|].
    intros n. apply itemRe_needs_lt, skipn_no_lt, H. }
  unfold FloridaTrees.parseRSS, Lambda.parseItems, Vercel.parseRSS.
  rewrite B. repeat split.
Qed.

Lemma document_without_markup_has_no_item_witness :
  FloridaTrees.parseRSS (sampleRuntime 0) (js "502 Bad Gateway") sampleSourceA 3
  = ([], 3).
Proof.
  apply (proj1 (proj2 (@document_without_markup_has_no_item
                         (js "502 Bad Gateway")
                         ltac:(repeat constructor; discriminate)))).
Defined.

(** ** The cache under a total outage *)

(** X23.  In the CommonJS revision a request during which the fetch of
    every configured source fails leaves the cache exactly as it was,
    payload and time of storage: an outage never costs the articles that
    an earlier request stored, whether they are still fresh or not. *)
Theorem Lambda_outage_keeps_cache rt get method cache t :
  (forall s, In s Lambda.SOURCES -> get (Lambda.url s) = None) ->
  snd (fst (Lambda.handler rt get method cache t)) = cache.
Proof.
  intros H. unfold Lambda.handler.
  destruct (jeqb method (js "OPTIONS")); [reflexivity|].
  rewrite bind_run.
  assert (R : forall t1, snd (fst (Lambda.rebuild rt get cache t1)) = cache).
  { intros t1. unfold Lambda.rebuild.
    rewrite bind_run, (Lambda_gatherAll_outage rt get Lambda.SOURCES t1 H).
    reflexivity. }
  destruct (fst (Lambda.isFresh rt cache t)), (Lambda.data cache);
    try apply R.
  reflexivity.
Qed.

Lemma Lambda_outage_keeps_cache_witness :
  snd (fst (Lambda.handler (sampleRuntime 400000) outage (js "GET")
                           warmCacheC 0)) = warmCacheC.
Proof.
  apply Lambda_outage_keeps_cache. intros s _. reflexivity.
Defined.
